(** * recipe-ai-assistant: the recipe routes of [src/index.ts] over the
      [recipes] table of [src/db/schema.ts]

    The service is a Hono application over a Cloudflare D1 (SQLite) table.
    The development embeds

    - the values the handlers exchange (JavaScript numbers and strings, JSON),
    - the zod schemas of the routes ([RecipeSchema], [NewRecipeSchema], the
      [id] parameter) together with the part of zod they use,
    - the [recipes] table with its constraints and defaults,
    - the handlers, written in a small state-and-exception monad that
      threads the table and the list of statements sent to the database,

    and then states the properties of the access layer over them. *)

From Stdlib Require Import ZArith List String Ascii Bool Lia.
From Stdlib Require Import DecimalString DecimalPos DecimalZ.
Import ListNotations.

Local Open Scope string_scope.
Local Open Scope list_scope.
Local Open Scope Z_scope.

(* ================================================================== *)
(** ** JavaScript values *)
(* ================================================================== *)

Module Js.

(** A JavaScript number: a value of the binary64 format.  A finite number is
    [Fin m e], the number [m * 2^e]: an integer [z] is [Fin z 0], and any
    other value has [e < 0].  The sign of zero is not kept. *)
Inductive Number : Type :=
| NaN
| PosInf
| NegInf
| Fin (m : Z) (e : Z).

Definition negate (n : Number) : Number :=
  match n with
  | NaN => NaN
  | PosInf => NegInf
  | NegInf => PosInf
  | Fin m e => Fin (- m) e
  end.

Definition is_nan (n : Number) : bool :=
  match n with NaN => true | _ => false end.

(** [Number.MAX_SAFE_INTEGER]: up to it every integer is a binary64. *)
Definition MAX_SAFE_INTEGER : Z := 2 ^ 53 - 1.

(** [floor (log2 (n / d))] for positive [n] and [d]. *)
Definition ilog2 (n d : Z) : Z :=
  let l := Z.log2 n - Z.log2 d in
  if (if 0 <=? l then d * 2 ^ l <=? n else d <=? n * 2 ^ (- l))
  then l else l - 1.

(** The binary64 nearest to [n / d] for positive [n] and [d], ties to the
    even mantissa: 53 bits of mantissa, no exponent below -1074, and
    [Infinity] from [2^1024] on. *)
Definition round_pos (n d : Z) : Number :=
  let e := Z.max (ilog2 n d - 52) (-1074) in
  let num := if 0 <=? e then n else n * 2 ^ (- e) in
  let den := if 0 <=? e then d * 2 ^ e else d in
  let q := num / den in
  let r := num mod den in
  let m := if (den <? 2 * r) || ((den =? 2 * r) && Z.odd q)
           then q + 1 else q in
  if 0 <=? e then
    if 2 ^ 1024 <=? m * 2 ^ e then PosInf else Fin (m * 2 ^ e) 0
  else if m mod 2 ^ (- e) =? 0 then Fin (m / 2 ^ (- e)) 0
  else Fin m e.

(** The Number value of the decimal [m * 10^e]. *)
Definition of_decimal (m e : Z) : Number :=
  let n := Z.abs m in
  let v := if n =? 0 then Fin 0 0
           else if 0 <=? e then round_pos (n * 10 ^ e) 1
           else round_pos n (10 ^ (- e)) in
  if m <? 0 then negate v else v.

(** The Number value of an integer, as a 64-bit rowid becomes one on its
    way to the handler. *)
Definition of_int (z : Z) : Number := of_decimal z 0.

(** [n == z] for an integer [z]: the comparison SQLite makes between an
    INTEGER column and a bound number. *)
Definition eq_int (n : Number) (z : Z) : bool :=
  match n with
  | Fin m e => if 0 <=? e then m * 2 ^ e =? z else m =? z * 2 ^ (- e)
  | _ => false
  end.

(** [Number.isInteger(n) && n > 0] *)
Definition is_positive_integer (n : Number) : bool :=
  match n with
  | Fin m e => (0 <? m) && (if 0 <=? e then true else m mod 2 ^ (- e) =? 0)
  | _ => false
  end.

(** Code units are the characters of a Rocq [string]. *)
Definition code (c : ascii) : Z := Z.of_N (N_of_ascii c).

(** StrWhiteSpaceChar: TAB, LF, VT, FF, CR, SP and NBSP among the code units
    below 256. *)
Definition is_ws (c : ascii) : bool :=
  let n := code c in
  ((9 <=? n) && (n <=? 13)) || (n =? 32) || (n =? 160).

Fixpoint drop_ws (l : list ascii) : list ascii :=
  match l with
  | c :: r => if is_ws c then drop_ws r else l
  | [] => []
  end.

Definition trim (l : list ascii) : list ascii :=
  rev (drop_ws (rev (drop_ws l))).

(** The value of a digit in a base up to 16, [None] for any other
    character. *)
Definition digit_value (base : Z) (c : ascii) : option Z :=
  let n := code c in
  let v :=
    if (48 <=? n) && (n <=? 57) then n - 48
    else if (97 <=? n) && (n <=? 102) then n - 87
    else if (65 <=? n) && (n <=? 70) then n - 55
    else 16 in
  if v <? base then Some v else None.

(** Reads the longest run of digits: the value accumulated on [acc], the
    number of digits read added to [n], and what follows the run. *)
Fixpoint read_digits (base : Z) (l : list ascii) (acc : Z) (n : nat)
  : Z * nat * list ascii :=
  match l with
  | c :: r =>
      match digit_value base c with
      | Some d => read_digits base r (acc * base + d) (S n)
      | None => (acc, n, l)
      end
  | [] => (acc, n, [])
  end.

Definition chars_eqb (a b : list ascii) : bool :=
  String.eqb (string_of_list_ascii a) (string_of_list_ascii b).

(** NonDecimalIntegerLiteral after its prefix: one digit at least and
    nothing after the digits. *)
Definition non_decimal (base : Z) (l : list ascii) : Number :=
  match read_digits base l 0 0 with
  | (_, O, _) => NaN
  | (v, S _, []) => of_int v
  | (_, S _, _ :: _) => NaN
  end.

(** ExponentPart after its [e]: an optional sign, one digit at least and
    nothing after the digits. *)
Definition exponent_part (l : list ascii) : option Z :=
  let '(sgn, r) :=
    match l with
    | c :: r =>
        if Ascii.eqb c "+" then (1, r)
        else if Ascii.eqb c "-" then (-1, r)
        else (1, l)
    | [] => (1, l)
    end in
  match read_digits 10 r 0 0 with
  | (_, O, _) => None
  | (v, S _, []) => Some (sgn * v)
  | (_, S _, _ :: _) => None
  end.

(** StrUnsignedDecimalLiteral: [Infinity], or digits with an optional
    fraction and an optional exponent, one digit at least before the
    exponent. *)
Definition unsigned_decimal (l : list ascii) : Number :=
  if chars_eqb l (list_ascii_of_string "Infinity") then PosInf
  else
    let '(ip, ni, r1) := read_digits 10 l 0 0 in
    let '(m, nf, r2) :=
      match r1 with
      | c :: r => if Ascii.eqb c "." then read_digits 10 r ip 0 else (ip, O, r1)
      | [] => (ip, O, r1)
      end in
    match (ni + nf)%nat with
    | O => NaN
    | S _ =>
        match r2 with
        | [] => of_decimal m (- Z.of_nat nf)
        | c :: r3 =>
            if Ascii.eqb c "e" || Ascii.eqb c "E" then
              match exponent_part r3 with
              | Some x => of_decimal m (x - Z.of_nat nf)
              | None => NaN
              end
            else NaN
        end
    end.

(** StrNumericLiteral. *)
Definition numeric_literal (l : list ascii) : Number :=
  match l with
  | c :: r =>
      if Ascii.eqb c "+" then unsigned_decimal r
      else if Ascii.eqb c "-" then negate (unsigned_decimal r)
      else
        match r with
        | p :: d =>
            if Ascii.eqb c "0" && (Ascii.eqb p "x" || Ascii.eqb p "X")
            then non_decimal 16 d
            else if Ascii.eqb c "0" && (Ascii.eqb p "o" || Ascii.eqb p "O")
            then non_decimal 8 d
            else if Ascii.eqb c "0" && (Ascii.eqb p "b" || Ascii.eqb p "B")
            then non_decimal 2 d
            else unsigned_decimal l
        | [] => unsigned_decimal l
        end
  | [] => unsigned_decimal l
  end.

(** [Number(s)] for a string [s] (StringToNumber): white space is trimmed,
    the empty string is 0, anything that is not a numeric literal is NaN,
    and the value of a literal is rounded to the format. *)
Definition StringToNumber (s : string) : Number :=
  match trim (list_ascii_of_string s) with
  | [] => Fin 0 0
  | l => numeric_literal l
  end.

(** [Number(v)] for a route parameter: a string, or [undefined] when the
    parameter is absent; [Number(undefined)] is NaN. *)
Definition ToNumber (v : option string) : Number :=
  match v with
  | Some s => StringToNumber s
  | None => NaN
  end.

(** [String(n)] for a number [n] whose value is the integer [z], below
    [10^21] in magnitude: the decimal digits of [z], [-] first when
    negative. *)
Definition String_of_int (z : Z) : string :=
  NilZero.string_of_int (Z.to_int z).

End Js.

(* ================================================================== *)
(** ** JSON values and zod schemas *)
(* ================================================================== *)

Module Json.

(** The values [JSON.parse] returns and [c.json] serialises.  An object is
    the list of its members in the order of the text. *)
#[warnings="-register-all"]
Inductive value : Type :=
| Null
| Bool (b : bool)
| Num (n : Js.Number)
| Str (s : string)
| Arr (items : list value)
| Obj (members : list (string * value)).

(** Property lookup.  A key written twice keeps its last value, as in
    [JSON.parse] and in the object [parseBody] fills. *)
Fixpoint get {A : Type} (k : string) (members : list (string * A)) : option A :=
  match members with
  | [] => None
  | (k', v) :: rest =>
      match get k rest with
      | Some v' => Some v'
      | None => if String.eqb k k' then Some v else None
      end
  end.

End Json.

Module Zod.

Definition in_range (lo hi : Z) (c : ascii) : bool :=
  (lo <=? Js.code c) && (Js.code c <=? hi).

(** The classes A-Z and A-Z0-9 of the pattern, which carries the flag i. *)
Definition is_alpha (c : ascii) : bool := in_range 65 90 c || in_range 97 122 c.
Definition is_alnum (c : ascii) : bool := is_alpha c || in_range 48 57 c.

Definition one_of (set : string) (c : ascii) : bool :=
  existsb (Ascii.eqb c) (list_ascii_of_string set).

(** The two classes of the local part: letters, digits, underscore,
    apostrophe, plus, minus and dot; and the same without apostrophe and dot
    for its last character. *)
Definition local_char (c : ascii) : bool := is_alnum c || one_of "_'+-." c.
Definition local_last (c : ascii) : bool := is_alnum c || one_of "_+-" c.

(** A label of the domain: a letter or digit, then letters, digits and
    minus signs. *)
Definition label (l : list ascii) : bool :=
  match l with
  | c :: r => is_alnum c && forallb (fun x => is_alnum x || one_of "-" x) r
  | [] => false
  end.

(** The last label of the domain: two letters at least. *)
Definition tld (l : list ascii) : bool :=
  (2 <=? List.length l)%nat && forallb is_alpha l.

(** The text cut at every [sep]; one piece more than there are [sep]s. *)
Fixpoint split (sep : ascii) (l : list ascii) : list (list ascii) :=
  match l with
  | [] => [[]]
  | c :: r =>
      if Ascii.eqb c sep then [] :: split sep r
      else
        match split sep r with
        | p :: ps => (c :: p) :: ps
        | [] => [[c]]
        end
  end.

Fixpoint has_dotdot (l : list ascii) : bool :=
  match l with
  | a :: (b :: _) as r => (Ascii.eqb a "." && Ascii.eqb b ".") || has_dotdot r
  | _ => false
  end.

(** The local part: characters of the first class, the last one of the
    second. *)
Definition local_part (l : list ascii) : bool :=
  match rev l with
  | last :: init => local_last last && forallb local_char init
  | [] => false
  end.

(** The domain: one label at least, each followed by a dot, then the last
    label. *)
Definition domain (l : list ascii) : bool :=
  match rev (split "." l) with
  | t :: (_ :: _) as labels => tld t && forallb label labels
  | _ => false
  end.

(** [z.string().email()], zod's pattern for an address: the text does not
    start with a dot and holds no two dots in a row; it is a local part, an
    at sign and a domain.  No class of the pattern holds the at sign, so the
    text has exactly one, between the local part and the domain. *)
Definition is_email (s : string) : bool :=
  let l := list_ascii_of_string s in
  negb (match l with c :: _ => Ascii.eqb c "." | [] => false end)
  && negb (has_dotdot l)
  && match split "@" l with
     | [loc; dom] => local_part loc && domain dom
     | _ => false
     end.

(** The field types the routes use. *)
Inductive type : Type :=
| string_          (* z.string() *)
| string_email     (* z.string().email() *)
| number.          (* z.number() *)

(** Whether a property (absent: [None]) passes a field type. *)
Definition check (t : type) (v : option Json.value) : bool :=
  match t, v with
  | string_, Some (Json.Str _) => true
  | string_email, Some (Json.Str s) => is_email s
  | number, Some (Json.Num n) => negb (Js.is_nan n)
  | _, _ => false
  end.

(** [z.object({...})]: the keys with their types. *)
Definition object : Type := list (string * type).

Fixpoint parse_fields (sch : object) (members : list (string * Json.value))
  : option (list (string * Json.value)) :=
  match sch with
  | [] => Some []
  | (k, t) :: rest =>
      match Json.get k members, parse_fields rest members with
      | Some v, Some out => if check t (Some v) then Some ((k, v) :: out) else None
      | _, _ => None
      end
  end.

(** [schema.safeParse(v)]: the value must be an object whose every schema
    key passes its type; keys outside the schema are dropped.  [None] is a
    failed parse. *)
Definition safeParse (sch : object) (v : Json.value)
  : option (list (string * Json.value)) :=
  match v with
  | Json.Obj members => parse_fields sch members
  | _ => None
  end.

(** [z.coerce.number()]: [Number(input)], refused when it is NaN. *)
Definition coerce_number (input : option string) : option Js.Number :=
  let n := Js.ToNumber input in
  if Js.is_nan n then None else Some n.

End Zod.

(* ================================================================== *)
(** ** The [recipes] table ([src/db/schema.ts]) *)
(* ================================================================== *)

Module Schema.

Inductive Default : Type :=
| CURRENT_TIMESTAMP.

(** A column as [sqliteTable] declares it. *)
Record Column : Type := {
  sql_name : string;
  primaryKey : bool;
  notNull : bool;
  default : option Default
}.

(** The columns of [recipes]. *)
Definition id_column : Column :=
  {| sql_name := "id"; primaryKey := true; notNull := false; default := None |}.
Definition name_column : Column :=
  {| sql_name := "name"; primaryKey := false; notNull := true; default := None |}.
Definition ingredience_column : Column :=
  {| sql_name := "ingredience"; primaryKey := false; notNull := true;
     default := None |}.
Definition createdAt_column : Column :=
  {| sql_name := "created_at"; primaryKey := false; notNull := true;
     default := Some CURRENT_TIMESTAMP |}.
Definition updatedAt_column : Column :=
  {| sql_name := "updated_at"; primaryKey := false; notNull := true;
     default := Some CURRENT_TIMESTAMP |}.

(** A stored row.  A text cell is [None] when it holds NULL; the rowid is a
    64-bit integer. *)
Record Recipe : Type := {
  id : Z;
  name : option string;
  ingredience : option string;
  createdAt : option string;
  updatedAt : option string
}.

(** What the insert statement carries for a column: the value given, the
    column default when none is given, NULL when there is no default. *)
Definition cell (c : Column) (now : string) (given : option string)
  : option string :=
  match given with
  | Some v => Some v
  | None =>
      match default c with
      | Some CURRENT_TIMESTAMP => Some now
      | None => None
      end
  end.

(** The first NOT NULL column that holds NULL, if any. *)
Fixpoint null_violation (cells : list (Column * option string))
  : option string :=
  match cells with
  | [] => None
  | (c, v) :: rest =>
      match v with
      | None => if notNull c then Some (sql_name c) else null_violation rest
      | Some _ => null_violation rest
      end
  end.

(** The row as drizzle hands it to the handler and [c.json] serialises it:
    the texts as they are, the rowid as the Number it becomes (column mode
    [number]). *)
Definition text_json (v : option string) : Json.value :=
  match v with
  | Some s => Json.Str s
  | None => Json.Null
  end.

Definition properties (r : Recipe) : list (string * Json.value) :=
  [ ("id", Json.Num (Js.of_int (id r)));
    ("name", text_json (name r));
    ("ingredience", text_json (ingredience r));
    ("createdAt", text_json (createdAt r));
    ("updatedAt", text_json (updatedAt r)) ].

Definition to_json (r : Recipe) : Json.value := Json.Obj (properties r).

End Schema.

(* ================================================================== *)
(** ** The D1 database *)
(* ================================================================== *)

Module D1.

Import Schema.

(** The statements the handlers send. *)
Inductive Stmt : Type :=
| SelectAll                                   (* select().from(recipes) *)
| SelectWhereId (n : Js.Number)               (* ....where(eq(recipes.id, n)) *)
| InsertValues (name ingredience : option string) (returning : bool).
                                              (* insert(recipes).values({..}) *)

(** What a statement can throw. *)
Inductive Error : Type :=
| StorageUnavailable                 (* the database could not be reached *)
| NotNullConstraint (column : string)
| RowidsExhausted.                   (* SQLITE_FULL *)

(** The largest rowid of SQLite. *)
Definition MAX_ROWID : Z := 2 ^ 63 - 1.

(** The largest rowid in use, [None] for an empty table. *)
Fixpoint max_rowid (t : list Recipe) : option Z :=
  match t with
  | [] => None
  | r :: rest =>
      match max_rowid rest with
      | Some m => Some (Z.max (id r) m)
      | None => Some (id r)
      end
  end.

(** The rowid after the largest in use (an INTEGER PRIMARY KEY without
    AUTOINCREMENT, inserted with a NULL [id]): 1 in an empty table, else one
    more than the largest rowid in use.  There is none when the largest
    rowid in use is [MAX_ROWID]. *)
Definition next_rowid (t : list Recipe) : option Z :=
  match max_rowid t with
  | None => Some 1
  | Some m => if m <? MAX_ROWID then Some (m + 1) else None
  end.

(** What a request finds around it: the value of CURRENT_TIMESTAMP, whether
    the database can be reached, and the numbers the random generator of
    SQLite gives to an insert, in the order it asks for them. *)
Record Env : Type := {
  now : string;
  db_up : bool;
  random : nat -> Z
}.

Definition in_use (t : list Recipe) (v : Z) : bool :=
  existsb (fun r => id r =? v) t.

(** The rowid SQLite makes of a random number. *)
Definition candidate (x : Z) : Z := Z.land x (Z.shiftr MAX_ROWID 1) + 1.

(** The rowid picked at random when the largest one is taken: the first of
    a hundred candidates that is not in use; SQLITE_FULL when all are. *)
Definition random_rowid (rnd : nat -> Z) (t : list Recipe) : option Z :=
  find (fun v => negb (in_use t v))
    (map (fun i => candidate (rnd i)) (seq 0 100)).

(** The rowid generated for a new row. *)
Definition new_rowid (rnd : nat -> Z) (t : list Recipe) : option Z :=
  match next_rowid t with
  | Some k => Some k
  | None => random_rowid rnd t
  end.

(** The row [insert(recipes).values({name, ingredience})] adds to [t];
    [id], [createdAt] and [updatedAt] are not given, so the rowid is
    generated and both timestamps take CURRENT_TIMESTAMP. *)
Definition new_row (env : Env) (name ingredience : option string)
    (t : list Recipe) : Error + Recipe :=
  let n := cell name_column (now env) name in
  let i := cell ingredience_column (now env) ingredience in
  let c := cell createdAt_column (now env) None in
  let u := cell updatedAt_column (now env) None in
  match null_violation [ (name_column, n); (ingredience_column, i);
                         (createdAt_column, c); (updatedAt_column, u) ] with
  | Some col => inl (NotNullConstraint col)
  | None =>
      match new_rowid (random env) t with
      | None => inl RowidsExhausted
      | Some k =>
          inr {| id := k; name := n; ingredience := i;
                 createdAt := c; updatedAt := u |}
      end
  end.

(** The state a request runs in: the rows of the table, each new row after
    those stored before it, and the statements sent to the database so far
    (sent, whether or not the database answered). *)
Record World : Type := {
  table : list Recipe;
  trace : list Stmt
}.

Inductive Outcome (A : Type) : Type :=
| Return (a : A)
| Throw (e : Error).
Arguments Return {A} a.
Arguments Throw {A} e.

(** Computations of a handler: they read the environment, change the world
    and return or throw. *)
Definition M (A : Type) : Type := Env -> World -> Outcome A * World.

Definition ret {A : Type} (a : A) : M A := fun _ w => (Return a, w).

Definition bind {A B : Type} (m : M A) (f : A -> M B) : M B :=
  fun env w =>
    match m env w with
    | (Return a, w') => f a env w'
    | (Throw e, w') => (Throw e, w')
    end.

(** The world once [s] has been sent and has changed no row. *)
Definition sent (s : Stmt) (w : World) : World :=
  {| table := table w; trace := trace w ++ [s] |}.

(** The world once [s] has been sent and has added [row]. *)
Definition stored (s : Stmt) (row : Recipe) (w : World) : World :=
  {| table := table w ++ [row]; trace := trace w ++ [s] |}.

(** Runs one statement ([await] on a drizzle query): the rows it yields. *)
Definition exec (s : Stmt) : M (list Recipe) :=
  fun env w =>
    if db_up env then
      match s with
      | SelectAll => (Return (table w), sent s w)
      | SelectWhereId n =>
          (Return (filter (fun r => Js.eq_int n (id r)) (table w)), sent s w)
      | InsertValues name ingredience returning =>
          match new_row env name ingredience (table w) with
          | inr row => (Return (if returning then [row] else []), stored s row w)
          | inl e => (Throw e, sent s w)
          end
      end
    else (Throw StorageUnavailable, sent s w).

End D1.

Notation "x <- m ;; k" := (D1.bind m (fun x => k))
  (at level 61, m at next level, right associativity).

(* ================================================================== *)
(** ** The application ([src/index.ts]) *)
(* ================================================================== *)

Module App.

Import Schema D1.

(** Why a request is refused with status 400 before its handler runs. *)
Inductive Rejection : Type :=
| ValidationError        (* the zod schema of the route refused the input *)
| MalformedJson.         (* the body is not JSON text *)

Inductive Response : Type :=
| json (body : option Json.value) (status : Z)     (* c.json(body, status) *)
| html (recipeList : string)                       (* c.html(page) *)
| redirect (location : string)                     (* c.redirect(location) *)
| bad_request (why : Rejection)                    (* status 400 *)
| server_error (e : Error).                        (* status 500 *)

(** The JSON body of a request to a route that takes one.  A body sent
    without a JSON content type is validated as the empty object,
    [Parsed (Json.Obj [])]. *)
Inductive Body : Type :=
| Malformed
| Parsed (v : Json.value).

(** *** Route definitions *)

Definition RecipeSchema : Zod.object :=
  [ ("id", Zod.number);
    ("name", Zod.string_);
    ("ingredience", Zod.string_email) ].

Definition NewRecipeSchema : Zod.object :=
  [ ("name", Zod.string_);
    ("ingredience", Zod.string_) ].

(** The validator of a [params] schema [z.object({ id: z.coerce.number() })],
    given the [id] of the parameters of the route. *)
Definition valid_param (id : option string) (handler : Js.Number -> M Response)
  : M Response :=
  match Zod.coerce_number id with
  | Some n => handler n
  | None => ret (bad_request ValidationError)
  end.

(** The validator of a required JSON body. *)
Definition valid_json (schema : Zod.object) (body : Body)
    (handler : list (string * Json.value) -> M Response) : M Response :=
  match body with
  | Malformed => ret (bad_request MalformedJson)
  | Parsed v =>
      match Zod.safeParse schema v with
      | Some data => handler data
      | None => ret (bad_request ValidationError)
      end
  end.

(** The text drizzle binds for a property: [undefined] becomes NULL.  After
    validation the properties are strings. *)
Definition text (v : option Json.value) : option string :=
  match v with
  | Some (Json.Str s) => Some s
  | _ => None
  end.

(** *** Pages *)

Definition nl : string := String (ascii_of_nat 10) EmptyString.

(** A value inside a template literal. *)
Definition show (v : option string) : string :=
  match v with
  | Some s => s
  | None => "null"
  end.

Definition li (recipe : Recipe) : string :=
  (nl ++ "      <li>" ++ nl ++ "        <strong>" ++ show (name recipe)
   ++ "</strong>: " ++ show (ingredience recipe) ++ nl ++ "      </li>")%string.

(** [GET /] and [GET /recipes]: the page around the list is fixed text and
    is left out of the response. *)
Definition page : M Response :=
  recipes <- exec SelectAll ;;
  ret (html (String.concat "" (map li recipes))).

(** [POST /add-recipe] *)
Definition add_recipe (form : list (string * string)) : M Response :=
  _ <- exec (InsertValues (Json.get "name" form) (Json.get "ingredience" form)
               false) ;;
  ret (redirect "/").

(** *** Route implementations *)

Definition getRecipes_handler : M Response :=
  users <- exec SelectAll ;;
  ret (json (Some (Json.Arr (map to_json users))) 200).

Definition getRecipe_handler (id : Js.Number) : M Response :=
  rows <- exec (SelectWhereId id) ;;
  ret (json (option_map to_json (hd_error rows)) 200).

Definition createRecipe_handler (data : list (string * Json.value))
  : M Response :=
  rows <- exec (InsertValues (text (Json.get "name" data))
                  (text (Json.get "ingredience" data)) true) ;;
  ret (json (option_map to_json (hd_error rows)) 201).

(** The requests the application routes.  The parameter of
    [GET /api/recipes/{id}] is the text of the path segment, which is never
    empty: the router gives the route no path without it. *)
Inductive Request : Type :=
| GET_root                                         (* GET / *)
| POST_add_recipe (form : list (string * string))  (* POST /add-recipe *)
| GET_recipes                                      (* GET /recipes *)
| GET_api_recipes                                  (* GET /api/recipes *)
| GET_api_recipe (id : string)                     (* GET /api/recipes/{id} *)
| POST_api_recipe (body : Body).                   (* POST /api/recipe *)

Definition route (req : Request) : M Response :=
  match req with
  | GET_root => page
  | POST_add_recipe form => add_recipe form
  | GET_recipes => page
  | GET_api_recipes => getRecipes_handler
  | GET_api_recipe id => valid_param (Some id) getRecipe_handler
  | POST_api_recipe body => valid_json NewRecipeSchema body createRecipe_handler
  end.

(** One request served: the response and the world after it.  An exception
    of the handler becomes a response of status 500. *)
Definition handle (req : Request) (env : Env) (w : World) : Response * World :=
  match route req env w with
  | (Return r, w') => (r, w')
  | (Throw e, w') => (server_error e, w')
  end.

End App.

(** The other copy of [index.ts] among the sources: it has the routes of the
    API only, and its [NewRecipeSchema] asks for an address in
    [ingredience]. *)
Module Part000.

Import Schema D1.

Definition NewRecipeSchema : Zod.object :=
  [ ("name", Zod.string_);
    ("ingredience", Zod.string_email) ].

Definition createRecipe (body : App.Body) : M App.Response :=
  App.valid_json NewRecipeSchema body App.createRecipe_handler.

(** The responses of this copy: the text of its root route (kept as the
    bytes of the source file), or a response of the kinds the routes of the
    API give. *)
Inductive Response : Type :=
| text (body : string)                              (* c.text(body) *)
| api (r : App.Response).

Inductive Request : Type :=
| GET_root                                          (* GET / *)
| GET_api_recipes                                   (* GET /api/recipes *)
| GET_api_recipe (id : string)                      (* GET /api/recipes/{id} *)
| POST_api_recipe (body : App.Body).                (* POST /api/recipe *)

Definition route (req : Request) : M Response :=
  match req with
  | GET_root => ret (text "Honc from above! ☁️🪿")
  | GET_api_recipes => r <- App.getRecipes_handler ;; ret (api r)
  | GET_api_recipe id =>
      r <- App.valid_param (Some id) App.getRecipe_handler ;; ret (api r)
  | POST_api_recipe body => r <- createRecipe body ;; ret (api r)
  end.

Definition handle (req : Request) (env : Env) (w : World) : Response * World :=
  match route req env w with
  | (Return r, w') => (r, w')
  | (Throw e, w') => (api (App.server_error e), w')
  end.

(** Requests served one after the other, each in its own surroundings. *)
Fixpoint run (reqs : list (Env * Request)) (w : World) : World :=
  match reqs with
  | [] => w
  | (env, req) :: rest => run rest (snd (handle req env w))
  end.

End Part000.

(* ================================================================== *)
(** ** Notions used in the statements *)
(* ================================================================== *)

Module Spec.

Import Schema D1 App.

(** The value of a run of decimal digits read onto [acc]. *)
Fixpoint uint_value (d : Decimal.uint) (acc : Z) : Z :=
  match d with
  | Decimal.Nil => acc
  | Decimal.D0 u => uint_value u (acc * 10 + 0)
  | Decimal.D1 u => uint_value u (acc * 10 + 1)
  | Decimal.D2 u => uint_value u (acc * 10 + 2)
  | Decimal.D3 u => uint_value u (acc * 10 + 3)
  | Decimal.D4 u => uint_value u (acc * 10 + 4)
  | Decimal.D5 u => uint_value u (acc * 10 + 5)
  | Decimal.D6 u => uint_value u (acc * 10 + 6)
  | Decimal.D7 u => uint_value u (acc * 10 + 7)
  | Decimal.D8 u => uint_value u (acc * 10 + 8)
  | Decimal.D9 u => uint_value u (acc * 10 + 9)
  end.

Definition digits (d : Decimal.uint) : list ascii :=
  list_ascii_of_string (NilEmpty.string_of_uint d).


(** Ingredient text in the ordinary sense: text without an at sign. *)
Definition ordinary (r : Recipe) : Prop :=
  forall s, ingredience r = Some s -> ~ In "@"%char (list_ascii_of_string s).

(** Sample surroundings and requests. *)
Definition empty_world : World := {| table := []; trace := [] |}.

Definition up : Env :=
  {| now := "2025-01-01 00:00:00"; db_up := true; random := fun _ => 0 |}.

Definition down : Env :=
  {| now := "2025-01-01 00:00:00"; db_up := false; random := fun _ => 0 |}.

Definition new_recipe (name ingredience : string) : Body :=
  Parsed (Json.Obj [ ("name", Json.Str name);
                     ("ingredience", Json.Str ingredience) ]).

Definition ramen : Body := new_recipe "Ramen" "Soba, brouth, pork, eggs".

End Spec.

(* ================================================================== *)
(** ** Requests in sequence *)
(* ================================================================== *)

Module Session.

Import Schema D1 App.

(** Requests served one after the other, each in its own surroundings. *)
Fixpoint run (reqs : list (Env * Request)) (w : World) : World :=
  match reqs with
  | [] => w
  | (env, req) :: rest => run rest (snd (handle req env w))
  end.

(** The routes registered for the method GET. *)
Definition is_GET (req : Request) : bool :=
  match req with
  | GET_root | GET_recipes | GET_api_recipes | GET_api_recipe _ => true
  | POST_add_recipe _ | POST_api_recipe _ => false
  end.

(** The rowids 1, 2, ..., n. *)
Definition first_rowids (n : nat) : list Z := map Z.of_nat (seq 1 n).

(** Both timestamps of a row are set and are the same. *)
Definition stamped (r : Recipe) : Prop :=
  createdAt r <> None /\ updatedAt r = createdAt r.

(** The list of the page for the rows [t]. *)
Definition recipeList (t : list Recipe) : string :=
  String.concat "" (map li t).

End Session.

Import Schema D1 App Spec Session.

(* ================================================================== *)
(** ** Numbers written in decimal are read back *)
(* ================================================================== *)

Section DecimalRoundTrip.

Import Js.

Lemma read_digits_uint (d : Decimal.uint) :
  forall acc n,
    read_digits 10 (digits d) acc n
    = (uint_value d acc, (n + Decimal.nb_digits d)%nat, []).
Proof.
  unfold digits.
  induction d; intros acc n; cbn [NilEmpty.string_of_uint list_ascii_of_string
    Decimal.nb_digits uint_value];
    try (cbn [read_digits]; f_equal; f_equal; lia);
    (change (read_digits 10 (?c :: ?r) acc n)
       with (read_digits 10 r (acc * 10 + (code c - 48)) (S n));
     rewrite IHd; f_equal; f_equal; lia).
Qed.

Lemma uint_value_pos (d : Decimal.uint) :
  forall p, uint_value d (Z.pos p) = Z.pos (Pos.of_uint_acc d p).
Proof.
  induction d; intros p; cbn [uint_value Pos.of_uint_acc]; trivial;
    rewrite <- IHd; f_equal; lia.
Qed.

Lemma uint_value_0 (d : Decimal.uint) :
  uint_value d 0 = Z.of_N (Pos.of_uint d).
Proof.
  induction d; cbn [uint_value Pos.of_uint]; trivial;
    change (0 * 10 + ?k) with k; trivial;
    rewrite uint_value_pos; reflexivity.
Qed.

Lemma uint_value_to_uint (p : positive) :
  uint_value (Pos.to_uint p) 0 = Z.pos p.
Proof.
  rewrite uint_value_0, DecimalPos.Unsigned.of_to. reflexivity.
Qed.

Lemma digits_not_Infinity (d : Decimal.uint) :
  chars_eqb (digits d) (list_ascii_of_string "Infinity") = false.
Proof. destruct d; reflexivity. Qed.

Lemma unsigned_decimal_digits (d : Decimal.uint) :
  d <> Decimal.Nil ->
  unsigned_decimal (digits d) = of_int (uint_value d 0).
Proof.
  intros Hd. unfold unsigned_decimal.
  rewrite digits_not_Infinity, read_digits_uint.
  destruct (Decimal.nb_digits d) eqn:E.
  - destruct d; try discriminate E. contradiction.
  - reflexivity.
Qed.

(** A literal that starts with a decimal digit and goes on with one is read
    as a decimal literal. *)
Lemma numeric_literal_digits (d : Decimal.uint) :
  numeric_literal (digits d) = unsigned_decimal (digits d).
Proof.
  destruct d as [|u|u|u|u|u|u|u|u|u|u]; try reflexivity;
    destruct u; reflexivity.
Qed.

Lemma digits_no_ws (d : Decimal.uint) :
  Forall (fun c => is_ws c = false) (digits d).
Proof.
  unfold digits.
  induction d; cbn [NilEmpty.string_of_uint list_ascii_of_string];
    constructor; trivial.
Qed.

Lemma drop_ws_id (l : list ascii) :
  Forall (fun c => is_ws c = false) l -> drop_ws l = l.
Proof.
  destruct 1 as [|c r Hc _]; cbn [drop_ws]; trivial. now rewrite Hc.
Qed.

Lemma trim_id (l : list ascii) :
  Forall (fun c => is_ws c = false) l -> trim l = l.
Proof.
  intros H. unfold trim.
  rewrite (drop_ws_id l H), (drop_ws_id (rev l)).
  - apply rev_involutive.
  - now apply Forall_rev.
Qed.

Lemma digits_nonempty (d : Decimal.uint) :
  d <> Decimal.Nil -> exists c r, digits d = c :: r.
Proof.
  destruct d; try contradiction; intros _; unfold digits;
    cbn [NilEmpty.string_of_uint list_ascii_of_string]; eauto.
Qed.

(** [Number(String(z))] is [z]. *)
Lemma StringToNumber_String_of_int (z : Z) :
  StringToNumber (String_of_int z) = of_int z.
Proof.
  destruct z as [|p|p]; [reflexivity| |].
  - unfold StringToNumber, String_of_int.
    cbn [Z.to_int NilZero.string_of_int].
    pose proof (DecimalPos.Unsigned.to_uint_nonnil p) as Hn.
    assert (E : NilZero.string_of_uint (Pos.to_uint p)
                = NilEmpty.string_of_uint (Pos.to_uint p))
      by (destruct (Pos.to_uint p); [contradiction | reflexivity ..]).
    rewrite E. fold (digits (Pos.to_uint p)).
    rewrite (trim_id _ (digits_no_ws _)).
    destruct (digits_nonempty _ Hn) as (c & r & Hc).
    rewrite Hc, <- Hc.
    rewrite numeric_literal_digits, unsigned_decimal_digits by exact Hn.
    now rewrite uint_value_to_uint.
  - unfold StringToNumber, String_of_int.
    cbn [Z.to_int NilZero.string_of_int].
    pose proof (DecimalPos.Unsigned.to_uint_nonnil p) as Hn.
    assert (E : NilZero.string_of_uint (Pos.to_uint p)
                = NilEmpty.string_of_uint (Pos.to_uint p))
      by (destruct (Pos.to_uint p); [contradiction | reflexivity ..]).
    rewrite E. cbn [list_ascii_of_string]. fold (digits (Pos.to_uint p)).
    rewrite trim_id
      by (constructor; [reflexivity | apply digits_no_ws]).
    change (numeric_literal ("-"%char :: digits (Pos.to_uint p)))
      with (negate (unsigned_decimal (digits (Pos.to_uint p)))).
    rewrite unsigned_decimal_digits by exact Hn.
    now rewrite uint_value_to_uint.
Qed.

(** An integer of at most 53 bits is a binary64. *)
Lemma round_pos_exact (n : Z) :
  0 < n -> n < 2 ^ 53 -> round_pos n 1 = Fin n 0.
Proof.
  intros Hn Hlt.
  pose proof (Z.log2_spec n Hn) as [Hlo Hhi].
  pose proof (Z.log2_nonneg n) as Hl0.
  assert (Hl : Z.log2 n <= 52).
  { destruct (Z.le_gt_cases (Z.log2 n) 52) as [H|H]; trivial.
    assert (2 ^ 53 <= 2 ^ Z.log2 n) by (apply Z.pow_le_mono_r; lia). lia. }
  assert (Hi : ilog2 n 1 = Z.log2 n).
  { unfold ilog2. change (Z.log2 1) with 0. rewrite Z.sub_0_r.
    destruct (Z.leb_spec 0 (Z.log2 n)); [|lia].
    destruct (Z.leb_spec (1 * 2 ^ Z.log2 n) n); [reflexivity | lia]. }
  unfold round_pos. rewrite Hi, Z.max_l by lia.
  destruct (Z.leb_spec 0 (Z.log2 n - 52)) as [He|He].
  - replace (Z.log2 n - 52) with 0 by lia.
    change (2 ^ 0) with 1. rewrite !Z.mul_1_r, Z.div_1_r, Z.mod_1_r.
    cbn [Z.mul Z.ltb Z.eqb Z.compare orb andb].
    destruct (Z.leb_spec (2 ^ 1024) n) as [Hbig|_]; [|reflexivity].
    assert (2 ^ 53 < 2 ^ 1024) by reflexivity. lia.
  - assert (Hp : 0 < 2 ^ (- (Z.log2 n - 52)))
      by (apply Z.pow_pos_nonneg; lia).
    rewrite Z.div_1_r, Z.mod_1_r.
    cbn [Z.mul Z.ltb Z.eqb Z.compare orb andb].
    rewrite Z.mod_mul, Z.div_mul by lia. reflexivity.
Qed.

Lemma of_int_safe (z : Z) :
  Z.abs z <= MAX_SAFE_INTEGER -> of_int z = Fin z 0.
Proof.
  unfold MAX_SAFE_INTEGER, of_int, of_decimal. intros Hz.
  change (10 ^ 0) with 1. rewrite Z.mul_1_r. cbn [Z.leb Z.compare].
  destruct z as [|p|p]; [reflexivity| |]; cbn [Z.abs Z.eqb Z.ltb Z.compare].
  - apply round_pos_exact; lia.
  - rewrite round_pos_exact by lia. reflexivity.
Qed.

(** Rounding gives a number. *)
Lemma of_decimal_not_nan (m e : Z) : is_nan (of_decimal m e) = false.
Proof.
  unfold of_decimal, round_pos. cbv zeta.
  repeat match goal with
         | |- context [if ?c then _ else _] => destruct c
         end; reflexivity.
Qed.

Lemma eq_int_Fin_0 (z k : Z) : eq_int (Fin z 0) k = (z =? k).
Proof. unfold eq_int. cbn. now rewrite Z.mul_1_r. Qed.

(** A rowid in the safe range is found by its own Number value only. *)
Lemma eq_int_of_int (z k : Z) :
  Z.abs z <= MAX_SAFE_INTEGER -> eq_int (of_int z) k = (z =? k).
Proof. intros Hz. rewrite (of_int_safe z Hz). apply eq_int_Fin_0. Qed.

End DecimalRoundTrip.

(* ================================================================== *)
(** ** Rowids and inserted rows *)
(* ================================================================== *)

Section Rowids.

Lemma max_rowid_bound (t : list Recipe) :
  forall m, max_rowid t = Some m -> forall r, In r t -> id r <= m.
Proof.
  induction t as [|a t IH]; intros m Hm r Hr; [contradiction|].
  cbn [max_rowid] in Hm.
  destruct (max_rowid t) as [m'|] eqn:E.
  - injection Hm as <-. destruct Hr as [<-|Hr]; [lia|].
    specialize (IH m' eq_refl r Hr). lia.
  - injection Hm as <-. destruct Hr as [<-|Hr]; [lia|].
    destruct t; [contradiction|]. cbn [max_rowid] in E.
    destruct (max_rowid t); discriminate E.
Qed.

(** A generated rowid is above every rowid in use. *)
Lemma next_rowid_above (t : list Recipe) (k : Z) :
  next_rowid t = Some k -> forall r, In r t -> id r < k.
Proof.
  unfold next_rowid. intros Hk r Hr.
  destruct (max_rowid t) as [m|] eqn:E.
  - pose proof (max_rowid_bound t m E r Hr).
    destruct (m <? MAX_ROWID); [|discriminate]. injection Hk as <-. lia.
  - destruct t; [contradiction|]. cbn [max_rowid] in E.
    destruct (max_rowid t); discriminate E.
Qed.

Lemma next_rowid_fresh (t : list Recipe) (k : Z) :
  next_rowid t = Some k -> ~ In k (map id t).
Proof.
  intros Hk Hin. apply in_map_iff in Hin as (r & Hr & Hin).
  pose proof (next_rowid_above t k Hk r Hin). lia.
Qed.

Lemma in_use_false (t : list Recipe) (k : Z) :
  in_use t k = false -> ~ In k (map id t).
Proof.
  unfold in_use. intros H Hin. apply in_map_iff in Hin as (r & Hr & Hin).
  assert (E : existsb (fun r => id r =? k) t = true)
    by (apply existsb_exists; exists r; split; [exact Hin | now apply Z.eqb_eq]).
  congruence.
Qed.

(** A generated rowid is not in use, whichever way it was generated. *)
Lemma new_rowid_fresh (rnd : nat -> Z) (t : list Recipe) (k : Z) :
  new_rowid rnd t = Some k -> ~ In k (map id t).
Proof.
  unfold new_rowid. destruct (next_rowid t) as [k'|] eqn:E.
  - intros [= <-]. now apply next_rowid_fresh.
  - unfold random_rowid. intros H. apply find_some in H as [_ H].
    apply in_use_false. now destruct (in_use t k).
Qed.


(** The row of a successful insert: both texts were given, the rowid is the
    generated one and both timestamps are CURRENT_TIMESTAMP. *)
Lemma new_row_inr (env : Env) (n i : option string) (t : list Recipe)
    (row : Recipe) :
  new_row env n i t = inr row ->
  exists a b k,
    n = Some a /\ i = Some b /\ new_rowid (random env) t = Some k
    /\ row = {| id := k; name := Some a; ingredience := Some b;
                createdAt := Some (now env); updatedAt := Some (now env) |}.
Proof.
  unfold new_row. destruct n as [a|], i as [b|]; cbn; try discriminate.
  destruct (new_rowid (random env) t) as [k|]; [|discriminate].
  intros [= <-]. now exists a, b, k.
Qed.

Lemma new_row_given (env : Env) (a b : string) (t : list Recipe) (k : Z) :
  next_rowid t = Some k ->
  new_row env (Some a) (Some b) t
  = inr {| id := k; name := Some a; ingredience := Some b;
           createdAt := Some (now env); updatedAt := Some (now env) |}.
Proof. unfold new_row, new_rowid. cbn. now intros ->. Qed.

(** An insert that lacks a text is refused by the NOT NULL constraint. *)
Lemma new_row_null (env : Env) (n i : option string) (t : list Recipe) :
  n = None \/ i = None ->
  exists col, new_row env n i t = inl (NotNullConstraint col).
Proof.
  unfold new_row. destruct n as [a|], i as [b|]; cbn; intros [H|H];
    try discriminate H; eauto.
Qed.



Lemma filter_none {A : Type} (f : A -> bool) (l : list A) :
  (forall x, In x l -> f x = false) -> filter f l = [].
Proof.
  induction l as [|a l IH]; intros H; [reflexivity|]. cbn [filter].
  rewrite (H a (or_introl eq_refl)). apply IH. intros x Hx. apply H. now right.
Qed.

End Rowids.

(* ================================================================== *)
(** ** What each route does *)
(* ================================================================== *)

Section Routes.

Variables (env : Env) (w : World).

Lemma handle_GET_api_recipes :
  handle GET_api_recipes env w
  = (if db_up env
     then json (Some (Json.Arr (map to_json (table w)))) 200
     else server_error StorageUnavailable,
     sent SelectAll w).
Proof.
  unfold handle, route, getRecipes_handler, bind, exec.
  destruct (db_up env); reflexivity.
Qed.

Lemma handle_GET_api_recipe_refused (param : string) :
  Zod.coerce_number (Some param) = None ->
  handle (GET_api_recipe param) env w = (bad_request ValidationError, w).
Proof.
  intros H. unfold handle, route, valid_param. now rewrite H.
Qed.

Lemma handle_GET_api_recipe_valid (param : string) (n : Js.Number) :
  Zod.coerce_number (Some param) = Some n ->
  handle (GET_api_recipe param) env w
  = (if db_up env
     then json (option_map to_json
                  (hd_error (filter (fun r => Js.eq_int n (id r)) (table w))))
            200
     else server_error StorageUnavailable,
     sent (SelectWhereId n) w).
Proof.
  intros H. unfold handle, route, valid_param. rewrite H.
  unfold getRecipe_handler, bind, exec.
  destruct (db_up env); reflexivity.
Qed.

(** What [NewRecipeSchema] lets through: objects whose [name] and
    [ingredience] are strings, of which it keeps these two properties. *)
Lemma safeParse_NewRecipeSchema (members : list (string * Json.value)) :
  Zod.safeParse NewRecipeSchema (Json.Obj members)
  = match text (Json.get "name" members),
          text (Json.get "ingredience" members) with
    | Some a, Some b =>
        Some [("name", Json.Str a); ("ingredience", Json.Str b)]
    | _, _ => None
    end.
Proof.
  cbn [Zod.safeParse NewRecipeSchema Zod.parse_fields].
  destruct (Json.get "name" members) as [[ | ? | ? | x | ? | ? ]|];
    destruct (Json.get "ingredience" members) as [[ | ? | ? | y | ? | ? ]|];
    reflexivity.
Qed.

Lemma handle_POST_api_recipe_refused (v : Json.value) :
  Zod.safeParse NewRecipeSchema v = None ->
  handle (POST_api_recipe (Parsed v)) env w = (bad_request ValidationError, w).
Proof.
  intros H. unfold handle, route, valid_json. now rewrite H.
Qed.

Lemma handle_POST_api_recipe_valid (members : list (string * Json.value))
    (a b : string) :
  text (Json.get "name" members) = Some a ->
  text (Json.get "ingredience" members) = Some b ->
  handle (POST_api_recipe (Parsed (Json.Obj members))) env w
  = let s := InsertValues (Some a) (Some b) true in
    if db_up env then
      match new_row env (Some a) (Some b) (table w) with
      | inr row => (json (Some (to_json row)) 201, stored s row w)
      | inl e => (server_error e, sent s w)
      end
    else (server_error StorageUnavailable, sent s w).
Proof.
  intros Ha Hb. unfold handle, route, valid_json.
  rewrite safeParse_NewRecipeSchema, Ha, Hb.
  unfold createRecipe_handler.
  change (Json.get "name" [("name", Json.Str a); ("ingredience", Json.Str b)])
    with (Some (Json.Str a)).
  change (Json.get "ingredience"
            [("name", Json.Str a); ("ingredience", Json.Str b)])
    with (Some (Json.Str b)).
  unfold bind, exec. cbn [text]. cbv zeta.
  destruct (db_up env); [|reflexivity].
  destruct (new_row _ _ _ _); reflexivity.
Qed.

(** A request to [POST /api/recipe] answered with status 201: its body gave
    two strings, and the response is the row the insert stored. *)
Lemma handle_POST_api_recipe_201 (body : Body) (r : option Json.value)
    (w' : World) :
  handle (POST_api_recipe body) env w = (json r 201, w') ->
  exists members a b row,
    body = Parsed (Json.Obj members)
    /\ text (Json.get "name" members) = Some a
    /\ text (Json.get "ingredience" members) = Some b
    /\ new_row env (Some a) (Some b) (table w) = inr row
    /\ r = Some (to_json row)
    /\ w' = stored (InsertValues (Some a) (Some b) true) row w.
Proof.
  destruct body as [|v]; [discriminate|].
  destruct (Zod.safeParse NewRecipeSchema v) as [data|] eqn:E;
    [|rewrite (handle_POST_api_recipe_refused v E); discriminate].
  destruct v as [ | ? | ? | ? | ? | members]; try discriminate E.
  rewrite safeParse_NewRecipeSchema in E.
  destruct (text (Json.get "name" members)) as [a|] eqn:Ha; [|discriminate].
  destruct (text (Json.get "ingredience" members)) as [b|] eqn:Hb;
    [|discriminate].
  rewrite (handle_POST_api_recipe_valid members a b Ha Hb). cbv zeta.
  destruct (db_up env); [|discriminate].
  destruct (new_row _ _ _ _) as [e|row] eqn:Hrow; [discriminate|].
  intros [= <- <-]. now exists members, a, b, row.
Qed.

Lemma handle_POST_add_recipe (form : list (string * string)) :
  handle (POST_add_recipe form) env w
  = let n := Json.get "name" form in
    let i := Json.get "ingredience" form in
    let s := InsertValues n i false in
    if db_up env then
      match new_row env n i (table w) with
      | inr row => (redirect "/", stored s row w)
      | inl e => (server_error e, sent s w)
      end
    else (server_error StorageUnavailable, sent s w).
Proof.
  unfold handle, route, add_recipe, bind, exec. cbv zeta.
  destruct (db_up env); [|reflexivity].
  destruct (new_row _ _ _ _); reflexivity.
Qed.

Lemma handle_page (req : Request) :
  req = GET_root \/ req = GET_recipes ->
  snd (handle req env w) = sent SelectAll w.
Proof.
  intros [-> | ->]; unfold handle, route, page, bind, exec;
    destruct (db_up env); reflexivity.
Qed.

(** A request leaves the table as it is or adds one row to it, the row of
    an insert. *)
Lemma handle_table (req : Request) :
  table (snd (handle req env w)) = table w
  \/ exists n i row,
       new_row env n i (table w) = inr row
       /\ table (snd (handle req env w)) = table w ++ [row].
Proof.
  destruct req as [|form| | |param|body].
  - left. now rewrite handle_page by auto.
  - rewrite handle_POST_add_recipe. cbv zeta.
    destruct (db_up env); [|now left].
    destruct (new_row _ _ _ _) as [e|row] eqn:E; [now left|].
    right. now exists (Json.get "name" form), (Json.get "ingredience" form), row.
  - left. now rewrite handle_page by auto.
  - left. now rewrite handle_GET_api_recipes.
  - left. destruct (Zod.coerce_number (Some param)) as [n|] eqn:E.
    + now rewrite (handle_GET_api_recipe_valid param n E).
    + now rewrite (handle_GET_api_recipe_refused param E).
  - destruct body as [|v]; [now left|].
    destruct (Zod.safeParse NewRecipeSchema v) as [data|] eqn:E;
      [|left; now rewrite (handle_POST_api_recipe_refused v E)].
    destruct v as [ | ? | ? | ? | ? | members]; try discriminate E.
    rewrite safeParse_NewRecipeSchema in E.
    destruct (text (Json.get "name" members)) as [a|] eqn:Ha; [|discriminate].
    destruct (text (Json.get "ingredience" members)) as [b|] eqn:Hb;
      [|discriminate].
    rewrite (handle_POST_api_recipe_valid members a b Ha Hb). cbv zeta.
    destruct (db_up env); [|now left].
    destruct (new_row _ _ _ _) as [e|row] eqn:Hrow; [now left|].
    right. now exists (Some a), (Some b), row.
Qed.

End Routes.

(* ================================================================== *)
(** ** Validation of the requests *)
(* ================================================================== *)

(** C1, as the specification words it, does not hold: a request to
    [POST /api/recipe] whose [name] is the empty string is not refused.
    [NewRecipeSchema] asks for [z.string()], which the empty string passes,
    so the row is stored. *)
Lemma createRecipe_empty_string_not_refused :
  ~ (forall members env w,
        (Json.get "name" members = None
         \/ Json.get "name" members = Some (Json.Str "")
         \/ Json.get "ingredience" members = None
         \/ Json.get "ingredience" members = Some (Json.Str "")) ->
        handle (POST_api_recipe (Parsed (Json.Obj members))) env w
        = (bad_request ValidationError, w)).
Proof.
  intros H.
  specialize (H [("name", Json.Str ""); ("ingredience", Json.Str "salt")]
                up empty_world).
  discriminate H. right. left. reflexivity.
Qed.

(** C1, amended: a request to [POST /api/recipe] in which [name] or
    [ingredience] is missing or is not a string is refused with a
    ValidationError; no statement is sent, the world is the one before, and
    [GET /api/recipes] answers after it what it answers before it.  Two
    strings, empty or not, pass validation, and the insert is sent. *)
Theorem createRecipe_validation (members : list (string * Json.value))
    (env : Env) (w : World) :
  let req := POST_api_recipe (Parsed (Json.Obj members)) in
  (text (Json.get "name" members) = None
   \/ text (Json.get "ingredience" members) = None ->
   handle req env w = (bad_request ValidationError, w)
   /\ forall env',
        fst (handle GET_api_recipes env' (snd (handle req env w)))
        = fst (handle GET_api_recipes env' w))
  /\ (forall a b,
        text (Json.get "name" members) = Some a ->
        text (Json.get "ingredience" members) = Some b ->
        (forall why, fst (handle req env w) <> bad_request why)
        /\ trace (snd (handle req env w))
           = trace w ++ [InsertValues (Some a) (Some b) true]).
Proof.
  intros req. split.
  - intros H.
    assert (E : handle req env w = (bad_request ValidationError, w)).
    { apply handle_POST_api_recipe_refused.
      rewrite safeParse_NewRecipeSchema.
      destruct H as [-> | ->]; [reflexivity|].
      now destruct (text (Json.get "name" members)). }
    split; [exact E|]. intros env'. now rewrite E.
  - intros a b Ha Hb. unfold req.
    rewrite (handle_POST_api_recipe_valid env w members a b Ha Hb). cbv zeta.
    destruct (db_up env); [destruct (new_row _ _ _ _)|];
      (split; [intros why; discriminate | reflexivity]).
Qed.

Lemma createRecipe_validation_witness :
  handle (POST_api_recipe (Parsed (Json.Obj [("name", Json.Str "Ramen")])))
    up empty_world
  = (bad_request ValidationError, empty_world)
  /\ trace (snd (handle (POST_api_recipe (new_recipe "" "")) up empty_world))
     = [InsertValues (Some "") (Some "") true].
Proof.
  split.
  - apply (proj1 (createRecipe_validation [("name", Json.Str "Ramen")]
                    up empty_world)).
    right. reflexivity.
  - apply (proj2 (createRecipe_validation
                    [("name", Json.Str ""); ("ingredience", Json.Str "")]
                    up empty_world) "" "" eq_refl eq_refl).
Defined.

(** C2, as the specification words it, does not hold: the parameter "0",
    which is not a positive integer, is not refused.  The schema of the
    parameter is [z.coerce.number()], with neither [int()] nor
    [positive()]. *)
Lemma getRecipe_zero_not_refused :
  ~ (forall param env w,
        Js.is_positive_integer (Js.StringToNumber param) = false ->
        handle (GET_api_recipe param) env w = (bad_request ValidationError, w)).
Proof.
  intros H. specialize (H "0" up empty_world eq_refl).
  discriminate H.
Qed.

(** C2, amended: a request to [GET /api/recipes/{id}], which the router
    serves for a path with an [id] only, is refused with a ValidationError,
    and sends no statement, exactly when [Number(id)] is NaN (the text is
    not a numeric literal).  Any other parameter passes, zero, negative
    numbers and fractions included, and the lookup is sent with
    [Number(id)], the binary64 nearest to what the text denotes. *)
Theorem getRecipe_validation (param : string) (env : Env) (w : World) :
  param <> "" ->
  (Js.is_nan (Js.StringToNumber param) = true ->
   handle (GET_api_recipe param) env w = (bad_request ValidationError, w))
  /\ (Js.is_nan (Js.StringToNumber param) = false ->
      (forall why, fst (handle (GET_api_recipe param) env w) <> bad_request why)
      /\ snd (handle (GET_api_recipe param) env w)
         = {| table := table w;
              trace := trace w ++ [SelectWhereId (Js.StringToNumber param)] |}).
Proof.
  intros _. split; intros H.
  - apply handle_GET_api_recipe_refused. unfold Zod.coerce_number, Js.ToNumber.
    now rewrite H.
  - rewrite (handle_GET_api_recipe_valid env w param (Js.StringToNumber param))
      by (unfold Zod.coerce_number, Js.ToNumber; now rewrite H).
    destruct (db_up env); (split; [intros why; discriminate | reflexivity]).
Qed.

Lemma getRecipe_validation_witness :
  handle (GET_api_recipe "ramen") up empty_world
  = (bad_request ValidationError, empty_world)
  /\ snd (handle (GET_api_recipe "-1.5") up empty_world)
     = {| table := [];
          trace := [SelectWhereId (Js.Fin (-6755399441055744) (-52))] |}
  /\ snd (handle (GET_api_recipe "1.0000000000000000001") up empty_world)
     = {| table := []; trace := [SelectWhereId (Js.Fin 1 0)] |}.
Proof.
  split; [|split].
  - apply (proj1 (getRecipe_validation "ramen" up empty_world
                    ltac:(discriminate))).
    reflexivity.
  - apply (proj2 (getRecipe_validation "-1.5" up empty_world
                    ltac:(discriminate))).
    reflexivity.
  - apply (proj2 (getRecipe_validation "1.0000000000000000001" up empty_world
                    ltac:(discriminate))).
    reflexivity.
Defined.

(* ================================================================== *)
(** ** Reading *)
(* ================================================================== *)

(** C3: a parameter that passes validation and whose Number value no stored
    row has as its rowid is answered, when the database can be reached,
    with status 200 and no body ([c.json(undefined)]): no ValidationError,
    no exception.  The lookup is the only statement sent and the table is
    as before. *)
Theorem getRecipe_not_found (param : string) (n : Js.Number)
    (env : Env) (w : World) :
  param <> "" ->
  Zod.coerce_number (Some param) = Some n ->
  db_up env = true ->
  (forall r, In r (table w) -> Js.eq_int n (id r) = false) ->
  handle (GET_api_recipe param) env w
  = (json None 200,
     {| table := table w; trace := trace w ++ [SelectWhereId n] |}).
Proof.
  intros _ Hn Hup Hnone.
  rewrite (handle_GET_api_recipe_valid env w param n Hn), Hup.
  now rewrite (filter_none _ _ Hnone).
Qed.

Lemma getRecipe_not_found_witness :
  let w := snd (handle (POST_api_recipe ramen) up empty_world) in
  handle (GET_api_recipe "7") up w
  = (json None 200,
     {| table := table w;
        trace := trace w ++ [SelectWhereId (Js.Fin 7 0)] |}).
Proof.
  intros w. apply (getRecipe_not_found "7" (Js.Fin 7 0) up w).
  - discriminate.
  - reflexivity.
  - reflexivity.
  - intros r [<-|[]]. reflexivity.
Defined.

(** A parameter is looked up by the binary64 it rounds to: a text that
    denotes a number next to 1 finds the row of rowid 1. *)
Remark getRecipe_rounds_the_parameter :
  fst (handle (GET_api_recipe "1.0000000000000000001") up
         (snd (handle (POST_api_recipe ramen) up empty_world)))
  = json (Some (Json.Obj [ ("id", Json.Num (Js.Fin 1 0));
                           ("name", Json.Str "Ramen");
                           ("ingredience", Json.Str "Soba, brouth, pork, eggs");
                           ("createdAt", Json.Str "2025-01-01 00:00:00");
                           ("updatedAt", Json.Str "2025-01-01 00:00:00") ]))
      200.
Proof. reflexivity. Qed.

(** C7: [GET /api/recipes] takes no input.  When the database can be reached
    it answers status 200 with every stored row, in the order of the table,
    each with its five properties, and an empty array for an empty table;
    it fails only when the database cannot be reached, and then with the
    error of the database.  The table is as before. *)
Theorem getRecipes_lists_every_row (env : Env) (w : World) :
  (db_up env = true ->
   fst (handle GET_api_recipes env w)
   = json (Some (Json.Arr
                   (map (fun r =>
                           Json.Obj [ ("id", Json.Num (Js.of_int (id r)));
                                      ("name", text_json (name r));
                                      ("ingredience",
                                       text_json (ingredience r));
                                      ("createdAt", text_json (createdAt r));
                                      ("updatedAt", text_json (updatedAt r)) ])
                      (table w)))) 200)
  /\ (db_up env = true -> table w = [] ->
      fst (handle GET_api_recipes env w) = json (Some (Json.Arr [])) 200)
  /\ ((exists e, fst (handle GET_api_recipes env w) = server_error e)
      <-> db_up env = false)
  /\ (forall why, fst (handle GET_api_recipes env w) <> bad_request why)
  /\ snd (handle GET_api_recipes env w)
     = {| table := table w; trace := trace w ++ [SelectAll] |}.
Proof.
  rewrite handle_GET_api_recipes. cbn [fst snd].
  repeat split.
  - now intros ->.
  - now intros -> ->.
  - destruct (db_up env); [intros [e He]; discriminate He | reflexivity].
  - intros ->. now exists StorageUnavailable.
  - intros why. destruct (db_up env); discriminate.
Qed.

Lemma getRecipes_lists_every_row_witness :
  let w := run [(up, POST_api_recipe ramen);
                (up, POST_add_recipe [("name", "Toast");
                                      ("ingredience", "Bread")])]
             empty_world in
  fst (handle GET_api_recipes up w)
  = json (Some (Json.Arr
                  [ Json.Obj [ ("id", Json.Num (Js.Fin 1 0));
                               ("name", Json.Str "Ramen");
                               ("ingredience",
                                Json.Str "Soba, brouth, pork, eggs");
                               ("createdAt", Json.Str "2025-01-01 00:00:00");
                               ("updatedAt", Json.Str "2025-01-01 00:00:00") ];
                    Json.Obj [ ("id", Json.Num (Js.Fin 2 0));
                               ("name", Json.Str "Toast");
                               ("ingredience", Json.Str "Bread");
                               ("createdAt", Json.Str "2025-01-01 00:00:00");
                               ("updatedAt", Json.Str "2025-01-01 00:00:00") ] ]))
      200
  /\ exists e, fst (handle GET_api_recipes down w) = server_error e.
Proof.
  intros w. split.
  - apply (proj1 (getRecipes_lists_every_row up w)). reflexivity.
  - apply (proj1 (proj2 (proj2 (getRecipes_lists_every_row down w)))).
    reflexivity.
Defined.

(* ================================================================== *)
(** ** Rows as JSON, and the response schema *)
(* ================================================================== *)

Section Rows.

Lemma split_without (sep : ascii) (l : list ascii) :
  ~ In sep l -> Zod.split sep l = [l].
Proof.
  induction l as [|c l IH]; intros H; [reflexivity|]. cbn [Zod.split].
  destruct (Ascii.eqb_spec c sep) as [->|_]; [exfalso; apply H; now left|].
  rewrite IH; [reflexivity|]. intros Hin. apply H. now right.
Qed.

(** An address holds an at sign. *)
Lemma is_email_at (s : string) :
  Zod.is_email s = true -> In "@"%char (list_ascii_of_string s).
Proof.
  intros H.
  destruct (in_dec ascii_dec "@"%char (list_ascii_of_string s)) as [|Hn];
    trivial.
  unfold Zod.is_email in H. cbv zeta in H.
  rewrite (split_without _ _ Hn) in H.
  rewrite andb_false_r in H. discriminate H.
Qed.

(** A row of ordinary ingredient text fails [RecipeSchema]. *)
Lemma ordinary_refused (r : Recipe) :
  ordinary r -> Zod.safeParse RecipeSchema (to_json r) = None.
Proof.
  intros Hr. unfold to_json.
  cbn [Zod.safeParse RecipeSchema Zod.parse_fields].
  change (Json.get "ingredience" (properties r))
    with (Some (text_json (ingredience r))).
  change (Json.get "name" (properties r)) with (Some (text_json (name r))).
  change (Json.get "id" (properties r))
    with (Some (Json.Num (Js.of_int (id r)))).
  assert (E : Zod.check Zod.string_email (Some (text_json (ingredience r)))
              = false).
  { destruct (ingredience r) as [s|] eqn:Hs; [|reflexivity]. cbn.
    destruct (Zod.is_email s) eqn:He; trivial.
    exfalso. exact (Hr s Hs (is_email_at s He)). }
  cbv iota beta. rewrite E. reflexivity.
Qed.

End Rows.

(* ================================================================== *)
(** ** Creating *)
(* ================================================================== *)

(** C5: a request to [POST /api/recipe] whose [name] and [ingredience] are
    strings is answered, when the database can be reached and a rowid
    follows the largest in use, with status 201 and the stored row in full:
    an object of five properties, the two texts of the caller, the rowid the
    table generated (as the Number it becomes, the rowid itself in the safe
    range), and CURRENT_TIMESTAMP in both [createdAt] and [updatedAt].  That
    row is the one added to the table, by the one insert sent. *)
Theorem createRecipe_returns_stored_row (members : list (string * Json.value))
    (a b : string) (env : Env) (w : World) (k : Z) :
  Json.get "name" members = Some (Json.Str a) ->
  Json.get "ingredience" members = Some (Json.Str b) ->
  db_up env = true ->
  next_rowid (table w) = Some k ->
  let result := handle (POST_api_recipe (Parsed (Json.Obj members))) env w in
  fst result
  = json (Some (Json.Obj [ ("id", Json.Num (Js.of_int k));
                           ("name", Json.Str a);
                           ("ingredience", Json.Str b);
                           ("createdAt", Json.Str (now env));
                           ("updatedAt", Json.Str (now env)) ])) 201
  /\ (Z.abs k <= Js.MAX_SAFE_INTEGER -> Js.of_int k = Js.Fin k 0)
  /\ table (snd result)
     = table w ++ [ {| id := k; name := Some a; ingredience := Some b;
                       createdAt := Some (now env);
                       updatedAt := Some (now env) |} ]
  /\ trace (snd result) = trace w ++ [InsertValues (Some a) (Some b) true].
Proof.
  intros Ha Hb Hup Hk result. unfold result.
  rewrite (handle_POST_api_recipe_valid env w members a b)
    by (rewrite ?Ha, ?Hb; reflexivity).
  cbv zeta. rewrite Hup, (new_row_given env a b (table w) k Hk).
  repeat split. apply of_int_safe.
Qed.

Lemma createRecipe_returns_stored_row_witness :
  handle (POST_api_recipe ramen) up empty_world
  = (json (Some (Json.Obj [ ("id", Json.Num (Js.Fin 1 0));
                            ("name", Json.Str "Ramen");
                            ("ingredience", Json.Str "Soba, brouth, pork, eggs");
                            ("createdAt", Json.Str "2025-01-01 00:00:00");
                            ("updatedAt", Json.Str "2025-01-01 00:00:00") ]))
       201,
     {| table := [ {| id := 1; name := Some "Ramen";
                      ingredience := Some "Soba, brouth, pork, eggs";
                      createdAt := Some "2025-01-01 00:00:00";
                      updatedAt := Some "2025-01-01 00:00:00" |} ];
        trace := [ InsertValues (Some "Ramen")
                     (Some "Soba, brouth, pork, eggs") true ] |}).
Proof.
  destruct (createRecipe_returns_stored_row
              [("name", Json.Str "Ramen");
               ("ingredience", Json.Str "Soba, brouth, pork, eggs")]
              "Ramen" "Soba, brouth, pork, eggs" up empty_world 1
              eq_refl eq_refl eq_refl eq_refl)
    as (Hr & _ & Ht & Hs).
  change (POST_api_recipe ramen)
    with (POST_api_recipe
            (Parsed (Json.Obj [("name", Json.Str "Ramen");
                               ("ingredience",
                                Json.Str "Soba, brouth, pork, eggs")]))).
  destruct (handle _ up empty_world) as [r [t s]].
  cbn [fst snd table trace] in Hr, Ht, Hs. now rewrite Hr, Ht, Hs.
Defined.

(** C8: a request to [POST /api/recipe] answered with status 201 has added
    one row, the one it answers, after the rows that were there, which are
    as they were; the insert is the one statement it sent. *)
Theorem createRecipe_adds_one_row (body : Body) (env : Env) (w w' : World)
    (r : option Json.value) :
  handle (POST_api_recipe body) env w = (json r 201, w') ->
  exists row a b,
    table w' = table w ++ [row]
    /\ r = Some (to_json row)
    /\ ~ In (id row) (map id (table w))
    /\ trace w' = trace w ++ [InsertValues (Some a) (Some b) true].
Proof.
  intros H.
  apply handle_POST_api_recipe_201 in H
    as (members & a & b & row & _ & _ & _ & Hrow & -> & ->).
  exists row, a, b. repeat split.
  apply new_row_inr in Hrow as (a' & b' & k & _ & _ & Hk & ->).
  exact (new_rowid_fresh _ _ _ Hk).
Qed.

Lemma createRecipe_adds_one_row_witness :
  let w' := snd (handle (POST_api_recipe ramen) up empty_world) in
  let r := {| id := 1; name := Some "Ramen";
              ingredience := Some "Soba, brouth, pork, eggs";
              createdAt := Some (now up); updatedAt := Some (now up) |} in
  exists row a b,
    table w' = table empty_world ++ [row]
    /\ Some (to_json r) = Some (to_json row)
    /\ ~ In (id row) (map id (table empty_world))
    /\ trace w' = trace empty_world ++ [InsertValues (Some a) (Some b) true].
Proof.
  intros w' r.
  exact (createRecipe_adds_one_row ramen up empty_world w' (Some (to_json r))
           eq_refl).
Defined.

Section SafeRowids.

Lemma max_rowid_in (t : list Recipe) (m : Z) :
  max_rowid t = Some m -> exists r, In r t /\ id r = m.
Proof.
  revert m. induction t as [|a t IH]; intros m H; [discriminate H|].
  cbn [max_rowid] in H. destruct (max_rowid t) as [m'|].
  - injection H as <-. destruct (Z.max_spec (id a) m') as [[_ E]|[_ E]].
    + destruct (IH m' eq_refl) as (r & Hr & Hid).
      exists r. split; [now right | congruence].
    + exists a. split; [now left | congruence].
  - injection H as <-. exists a. split; [now left | reflexivity].
Qed.

(** In a table whose rowids are below a bound in magnitude, the bound being
    at most the largest rowid, a rowid follows the largest in use; it is
    within the bound and above every rowid in use. *)
Lemma next_rowid_bounded (t : list Recipe) (B : Z) :
  1 <= B <= MAX_ROWID ->
  (forall r, In r t -> Z.abs (id r) < B) ->
  exists k,
    next_rowid t = Some k /\ Z.abs k <= B
    /\ forall r, In r t -> id r < k.
Proof.
  intros HB Ht. unfold next_rowid.
  destruct (max_rowid t) as [m|] eqn:E.
  - destruct (max_rowid_in t m E) as (r & Hr & Hid).
    pose proof (Ht r Hr) as Hb.
    destruct (Z.ltb_spec m MAX_ROWID) as [_|Hge]; [|lia].
    exists (m + 1). split; [reflexivity|]. split; [lia|].
    intros x Hx. pose proof (max_rowid_bound t m E x Hx). lia.
  - exists 1. split; [reflexivity|]. split; [lia|].
    intros x Hx. destruct t; [contradiction|]. cbn [max_rowid] in E.
    destruct (max_rowid t); discriminate E.
Qed.

Lemma MAX_SAFE_INTEGER_bounds :
  1 <= Js.MAX_SAFE_INTEGER <= MAX_ROWID
  /\ 1 <= Js.MAX_SAFE_INTEGER - 1 <= MAX_ROWID.
Proof. unfold Js.MAX_SAFE_INTEGER, MAX_ROWID. lia. Qed.

(** What a request to [POST /api/recipe] answered with status 201 has done
    in a table whose rowids are below a bound within the safe range: the
    record has the rowid that follows the largest in use as its [id], and
    the row is the last of the table. *)
Lemma handle_POST_api_recipe_201_safe (body : Body) (env : Env)
    (w w' : World) (v : Json.value) (B : Z) :
  1 <= B <= Js.MAX_SAFE_INTEGER ->
  (forall r, In r (table w) -> Z.abs (id r) < B) ->
  handle (POST_api_recipe body) env w = (json (Some v) 201, w') ->
  exists row,
    v = to_json row
    /\ Json.get "id" (properties row) = Some (Json.Num (Js.Fin (id row) 0))
    /\ next_rowid (table w) = Some (id row)
    /\ Z.abs (id row) <= B
    /\ (forall r, In r (table w) -> id r < id row)
    /\ table w' = table w ++ [row]
    /\ trace w' = trace w ++ [InsertValues (name row) (ingredience row) true].
Proof.
  intros HB Ht H.
  apply handle_POST_api_recipe_201 in H
    as (members & a & b & row & _ & _ & _ & Hrow & E & ->).
  assert (Hv : v = to_json row) by congruence.
  destruct (next_rowid_bounded (table w) B) as (k & Hk & Hkb & Habove);
    [pose proof MAX_SAFE_INTEGER_bounds; lia | exact Ht |].
  rewrite (new_row_given env a b (table w) k Hk) in Hrow.
  injection Hrow as <-. cbn [id name ingredience].
  eexists. split; [exact Hv|]. cbn [id name ingredience].
  repeat split; trivial.
  change (Json.get "id" (properties ?r))
    with (Some (Json.Num (Js.of_int (id r)))).
  cbn [id]. now rewrite of_int_safe by lia.
Qed.

End SafeRowids.



(** From [2^53] on a rowid and its Number part: the record of a row whose
    rowid is [2^53 + 1] carries the [id] [2^53]. *)
Remark unsafe_rowid_is_rounded :
  Js.of_int (2 ^ 53 + 1) = Js.Fin (2 ^ 53) 0.
Proof. reflexivity. Qed.

(** When the largest rowid is in use the rowid is picked at random, and is
    then below the largest: the create succeeds all the same. *)
Remark rowid_picked_at_random :
  handle (POST_api_recipe (new_recipe "Toast" "Bread")) up
    {| table := [ {| id := MAX_ROWID; name := Some "Ramen";
                     ingredience := Some "Soba"; createdAt := Some "";
                     updatedAt := Some "" |} ];
       trace := [] |}
  = (json (Some (Json.Obj [ ("id", Json.Num (Js.Fin 1 0));
                            ("name", Json.Str "Toast");
                            ("ingredience", Json.Str "Bread");
                            ("createdAt", Json.Str "2025-01-01 00:00:00");
                            ("updatedAt", Json.Str "2025-01-01 00:00:00") ]))
       201,
     {| table := [ {| id := MAX_ROWID; name := Some "Ramen";
                      ingredience := Some "Soba"; createdAt := Some "";
                      updatedAt := Some "" |};
                   {| id := 1; name := Some "Toast";
                      ingredience := Some "Bread";
                      createdAt := Some "2025-01-01 00:00:00";
                      updatedAt := Some "2025-01-01 00:00:00" |} ];
        trace := [InsertValues (Some "Toast") (Some "Bread") true] |}).
Proof. reflexivity. Qed.

(* ================================================================== *)
(** ** The invariant of the table *)
(* ================================================================== *)



(* ================================================================== *)
(** ** The form of the page *)
(* ================================================================== *)

(** C9: [POST /add-recipe] is a second way to create a recipe.  It checks
    nothing: whatever the form holds, the response is never a
    ValidationError, and the insert is sent with the fields [name] and
    [ingredience] as the form has them.  When the database can be reached, a
    form that lacks one of them is stopped by the NOT NULL constraint of the
    table, after the statement was sent; two fields, empty or not, are
    stored when a rowid is left, and the response redirects to the page. *)
Theorem add_recipe_not_validated (form : list (string * string)) (env : Env)
    (w : World) :
  let n := Json.get "name" form in
  let i := Json.get "ingredience" form in
  (forall why, fst (handle (POST_add_recipe form) env w) <> bad_request why)
  /\ trace (snd (handle (POST_add_recipe form) env w))
     = trace w ++ [InsertValues n i false]
  /\ (db_up env = true -> n = None \/ i = None ->
      exists col,
        handle (POST_add_recipe form) env w
        = (server_error (NotNullConstraint col), sent (InsertValues n i false) w))
  /\ (forall a b k,
        db_up env = true -> n = Some a -> i = Some b ->
        next_rowid (table w) = Some k ->
        handle (POST_add_recipe form) env w
        = (redirect "/",
           stored (InsertValues n i false)
             {| id := k; name := Some a; ingredience := Some b;
                createdAt := Some (now env); updatedAt := Some (now env) |} w)).
Proof.
  intros n i. rewrite handle_POST_add_recipe. cbv zeta. fold n i.
  split; [|split; [|split]].
  - intros why. destruct (db_up env); [destruct (new_row _ _ _ _)|];
      discriminate.
  - destruct (db_up env); [destruct (new_row _ _ _ _)|]; reflexivity.
  - intros -> Hnull.
    destruct (new_row_null env n i (table w) Hnull) as [col ->].
    now exists col.
  - intros a b k -> Hn Hi Hk. rewrite Hn, Hi.
    now rewrite (new_row_given env a b (table w) k Hk).
Qed.

Lemma add_recipe_not_validated_witness :
  (exists col,
      handle (POST_add_recipe [("name", "Ramen")]) up empty_world
      = (server_error (NotNullConstraint col),
         sent (InsertValues (Some "Ramen") None false) empty_world))
  /\ handle (POST_add_recipe [("name", ""); ("ingredience", "")]) up empty_world
     = (redirect "/",
        stored (InsertValues (Some "") (Some "") false)
          {| id := 1; name := Some ""; ingredience := Some "";
             createdAt := Some (now up); updatedAt := Some (now up) |}
          empty_world).
Proof.
  split.
  - apply (proj1 (proj2 (proj2 (add_recipe_not_validated
                                  [("name", "Ramen")] up empty_world)))).
    + reflexivity.
    + right. reflexivity.
  - apply (proj2 (proj2 (proj2 (add_recipe_not_validated
                                  [("name", ""); ("ingredience", "")]
                                  up empty_world))) "" "" 1);
      reflexivity.
Defined.

(* ================================================================== *)
(** ** The declared response schema *)
(* ================================================================== *)

(** C10: [RecipeSchema], the schema the three routes of the API declare for
    a recipe in their responses, has the keys [id], [name] and [ingredience]
    only, and asks for an address in [ingredience].  The text of its own
    example is not one.  So a stored row whose ingredients are ordinary text
    fails the schema, and so does what the routes answer for such rows:
    every item of the array of [GET /api/recipes], the record of
    [GET /api/recipes/{id}], and the record of [POST /api/recipe]. *)
Theorem RecipeSchema_refuses_stored_rows :
  map fst RecipeSchema = ["id"; "name"; "ingredience"]
  /\ Json.get "ingredience" RecipeSchema = Some Zod.string_email
  /\ Zod.is_email "Soba, brouth, pork, eggs" = false
  /\ (forall r, ordinary r -> Zod.safeParse RecipeSchema (to_json r) = None)
  /\ (forall env w items,
        Forall ordinary (table w) ->
        fst (handle GET_api_recipes env w) = json (Some (Json.Arr items)) 200 ->
        Forall (fun v => Zod.safeParse RecipeSchema v = None) items)
  /\ (forall param env w v w',
        Forall ordinary (table w) ->
        handle (GET_api_recipe param) env w = (json (Some v) 200, w') ->
        Zod.safeParse RecipeSchema v = None)
  /\ (forall members b env w v w',
        Json.get "ingredience" members = Some (Json.Str b) ->
        ~ In "@"%char (list_ascii_of_string b) ->
        handle (POST_api_recipe (Parsed (Json.Obj members))) env w
        = (json (Some v) 201, w') ->
        Zod.safeParse RecipeSchema v = None).
Proof.
  repeat match goal with |- _ /\ _ => split end; try reflexivity.
  - exact ordinary_refused.
  - intros env w items Hord. rewrite handle_GET_api_recipes. cbn [fst].
    destruct (db_up env); [|discriminate]. intros [= <-].
    apply Forall_map. revert Hord. apply Forall_impl. exact ordinary_refused.
  - intros param env w v w' Hord.
    destruct (Zod.coerce_number (Some param)) as [n|] eqn:E;
      [|rewrite (handle_GET_api_recipe_refused env w param E); discriminate].
    rewrite (handle_GET_api_recipe_valid env w param n E).
    destruct (db_up env); [|discriminate].
    destruct (filter _ (table w)) as [|r rest] eqn:Hf; [discriminate|].
    cbn [hd_error option_map]. intros [= <- _].
    apply ordinary_refused.
    assert (Hin : In r (filter (fun r => Js.eq_int n (id r)) (table w)))
      by (rewrite Hf; now left).
    apply filter_In in Hin as [Hin _].
    exact (proj1 (Forall_forall _ _) Hord r Hin).
  - intros members b env w v w' Hb Hat H.
    apply handle_POST_api_recipe_201 in H
      as (m & a' & b' & row & [= <-] & _ & Hb' & Hrow & [= ->] & _).
    apply ordinary_refused.
    apply new_row_inr in Hrow as (a1 & b1 & k & _ & [= <-] & _ & ->).
    rewrite Hb in Hb'. injection Hb' as <-.
    intros s [= <-]. exact Hat.
Qed.

Lemma RecipeSchema_refuses_stored_rows_witness :
  Zod.safeParse RecipeSchema
    (to_json {| id := 1; name := Some "Ramen";
                ingredience := Some "Soba, brouth, pork, eggs";
                createdAt := Some (now up); updatedAt := Some (now up) |})
  = None.
Proof.
  apply (proj1 (proj2 (proj2 (proj2 RecipeSchema_refuses_stored_rows)))).
  intros s [= <-] H.
  repeat (destruct H as [H|H]; [discriminate H|]). exact H.
Defined.

(** The keys the schema leaves out do no harm by themselves: a row whose
    ingredients are an address passes, and the parse drops [createdAt] and
    [updatedAt]. *)
Remark RecipeSchema_accepts_address (r : Recipe) (a s : string) :
  name r = Some a ->
  ingredience r = Some s ->
  Zod.is_email s = true ->
  Zod.safeParse RecipeSchema (to_json r)
  = Some [ ("id", Json.Num (Js.of_int (id r)));
           ("name", Json.Str a);
           ("ingredience", Json.Str s) ].
Proof.
  intros Ha Hs He. unfold to_json.
  cbn [Zod.safeParse RecipeSchema Zod.parse_fields].
  change (Json.get "ingredience" (properties r))
    with (Some (text_json (ingredience r))).
  change (Json.get "name" (properties r)) with (Some (text_json (name r))).
  change (Json.get "id" (properties r))
    with (Some (Json.Num (Js.of_int (id r)))).
  rewrite Ha, Hs. cbn [text_json Zod.check]. rewrite He.
  unfold Js.of_int. now rewrite of_decimal_not_nan.
Qed.

(* ================================================================== *)
(** ** The other copy of [index.ts] *)
(* ================================================================== *)

(** In the copy whose [NewRecipeSchema] asks for an address, a request
    without [name] or without [ingredience] is refused as well, and so is
    one whose ingredients are ordinary text; an empty [name] still passes. *)
Remark Part000_createRecipe_refused (members : list (string * Json.value))
    (env : Env) (w : World) :
  (text (Json.get "name" members) = None
   \/ text (Json.get "ingredience" members) = None
   \/ exists b, Json.get "ingredience" members = Some (Json.Str b)
                /\ ~ In "@"%char (list_ascii_of_string b)) ->
  Part000.createRecipe (Parsed (Json.Obj members)) env w
  = (Return (bad_request ValidationError), w).
Proof.
  intros H. unfold Part000.createRecipe, valid_json.
  replace (Zod.safeParse Part000.NewRecipeSchema (Json.Obj members))
    with (@None (list (string * Json.value))); [reflexivity|].
  symmetry. cbn [Zod.safeParse Part000.NewRecipeSchema Zod.parse_fields].
  destruct H as [H | [H | (b & Hb & Hat)]].
  - destruct (Json.get "name" members) as [[ | ? | ? | x | ? | ? ]|];
      try discriminate H;
      destruct (Json.get "ingredience" members) as [[ | ? | ? | y | ? | ? ]|];
      cbn; try reflexivity; now destruct (Zod.is_email y).
  - destruct (Json.get "ingredience" members) as [[ | ? | ? | y | ? | ? ]|];
      try discriminate H;
      destruct (Json.get "name" members) as [[ | ? | ? | x | ? | ? ]|];
      reflexivity.
  - rewrite Hb. cbn [Zod.check].
    destruct (Zod.is_email b) eqn:E;
      [exfalso; exact (Hat (is_email_at b E))|].
    now destruct (Json.get "name" members).
Qed.

Remark Part000_createRecipe_empty_name :
  Part000.createRecipe (new_recipe "" "cook@example.org") up empty_world
  = (Return
       (json (Some (to_json {| id := 1; name := Some "";
                               ingredience := Some "cook@example.org";
                               createdAt := Some (now up);
                               updatedAt := Some (now up) |})) 201),
     stored (InsertValues (Some "") (Some "cook@example.org") true)
       {| id := 1; name := Some ""; ingredience := Some "cook@example.org";
          createdAt := Some (now up); updatedAt := Some (now up) |}
       empty_world).
Proof. reflexivity. Qed.

(* ================================================================== *)
(** ** Every route: statements sent, failures, reads *)
(* ================================================================== *)

Section EveryRoute.

Variables (env : Env) (w : World).

(** The three shapes of a request served: refused before its handler, run
    with a statement that changed no row, or run with an insert that stored
    a row. *)
Lemma handle_cases (req : Request) :
  (exists why, handle req env w = (bad_request why, w))
  \/ (exists s r,
        handle req env w = (r, sent s w)
        /\ (forall why, r <> bad_request why)
        /\ (db_up env = false -> r = server_error StorageUnavailable)
        /\ (is_GET req = true -> forall e, r = server_error e ->
            e = StorageUnavailable))
  \/ (exists s r n i row,
        handle req env w = (r, stored s row w)
        /\ (forall why e, r <> bad_request why /\ r <> server_error e)
        /\ db_up env = true
        /\ is_GET req = false
        /\ s = InsertValues n i (match req with
                                 | POST_api_recipe _ => true
                                 | _ => false
                                 end)
        /\ new_row env n i (table w) = inr row).
Proof.
  assert (Hpage : forall req', req' = GET_root \/ req' = GET_recipes ->
            handle req' env w
            = (if db_up env then html (recipeList (table w))
               else server_error StorageUnavailable, sent SelectAll w)).
  { intros req' [-> | ->]; unfold handle, route, page, bind, exec;
      destruct (db_up env); reflexivity. }
  destruct req as [|form| | |param|body].
  - right; left. exists SelectAll. eexists. split; [apply Hpage; auto|].
    destruct (db_up env); repeat split; try discriminate; congruence.
  - rewrite handle_POST_add_recipe. cbv zeta.
    destruct (db_up env) eqn:Hup.
    + destruct (new_row _ _ _ _) as [e|row] eqn:Hrow.
      * right; left. do 2 eexists. split; [reflexivity|].
        repeat split; discriminate.
      * right; right.
        exists (InsertValues (Json.get "name" form)
                  (Json.get "ingredience" form) false), (redirect "/"),
          (Json.get "name" form), (Json.get "ingredience" form), row.
        repeat split; trivial; discriminate.
    + right; left. do 2 eexists. split; [reflexivity|].
      repeat split; discriminate || trivial.
  - right; left. exists SelectAll. eexists. split; [apply Hpage; auto|].
    destruct (db_up env); repeat split; try discriminate; congruence.
  - right; left. rewrite handle_GET_api_recipes. do 2 eexists.
    split; [reflexivity|].
    destruct (db_up env); repeat split; try discriminate; congruence.
  - destruct (Zod.coerce_number (Some param)) as [n|] eqn:E.
    + right; left. rewrite (handle_GET_api_recipe_valid env w param n E).
      do 2 eexists. split; [reflexivity|].
      destruct (db_up env); repeat split; try discriminate; congruence.
    + left. exists ValidationError.
      exact (handle_GET_api_recipe_refused env w param E).
  - destruct body as [|v]; [left; now exists MalformedJson|].
    destruct (Zod.safeParse NewRecipeSchema v) as [data|] eqn:E;
      [|left; exists ValidationError;
        exact (handle_POST_api_recipe_refused env w v E)].
    destruct v as [ | ? | ? | ? | ? | members]; try discriminate E.
    rewrite safeParse_NewRecipeSchema in E.
    destruct (text (Json.get "name" members)) as [a|] eqn:Ha; [|discriminate].
    destruct (text (Json.get "ingredience" members)) as [b|] eqn:Hb;
      [|discriminate].
    rewrite (handle_POST_api_recipe_valid env w members a b Ha Hb). cbv zeta.
    destruct (db_up env) eqn:Hup.
    + destruct (new_row _ _ _ _) as [e|row] eqn:Hrow.
      * right; left. do 2 eexists. split; [reflexivity|].
        repeat split; discriminate.
      * right; right.
        exists (InsertValues (Some a) (Some b) true),
          (json (Some (to_json row)) 201), (Some a), (Some b), row.
        repeat split; trivial; discriminate.
    + right; left. do 2 eexists. split; [reflexivity|].
      repeat split; discriminate || trivial.
Qed.

End EveryRoute.

(** X1: a request sends one statement at most.  It sends none exactly when
    it is refused with status 400, and then the world is the one before;
    otherwise the statements sent are those sent before and one more. *)
Theorem request_sends_one_statement_at_most (req : Request) (env : Env)
    (w : World) :
  (exists why, handle req env w = (bad_request why, w))
  \/ ((forall why, fst (handle req env w) <> bad_request why)
      /\ exists s, trace (snd (handle req env w)) = trace w ++ [s]).
Proof.
  destruct (handle_cases env w req)
    as [H | [(s & r & -> & Hr & _) | (s & r & n & i & row & -> & Hr & _)]].
  - now left.
  - right. split; [exact Hr|]. now exists s.
  - right. split; [intros why; apply Hr; exact StorageUnavailable|].
    now exists s.
Qed.

(** X2: no route hides a failure of the database.  When the database cannot
    be reached, a request that passes validation is answered with status 500
    and the error of the database, never with a success, and the table is as
    before. *)
Theorem unreachable_database_is_reported (req : Request) (env : Env)
    (w : World) :
  db_up env = false ->
  (exists why, handle req env w = (bad_request why, w))
  \/ (fst (handle req env w) = server_error StorageUnavailable
      /\ table (snd (handle req env w)) = table w).
Proof.
  intros Hdown.
  destruct (handle_cases env w req)
    as [H | [(s & r & -> & _ & Hr & _)
            | (s & r & n & i & row & _ & _ & Hup & _)]].
  - now left.
  - right. split; [exact (Hr Hdown) | reflexivity].
  - congruence.
Qed.

Lemma unreachable_database_is_reported_witness :
  (exists why,
      handle (POST_api_recipe ramen) down empty_world
      = (bad_request why, empty_world))
  \/ (fst (handle (POST_api_recipe ramen) down empty_world)
      = server_error StorageUnavailable
      /\ table (snd (handle (POST_api_recipe ramen) down empty_world))
         = table empty_world).
Proof.
  apply unreachable_database_is_reported. reflexivity.
Defined.

(** X3: the routes of the method GET never change the table, whatever the
    database answers, and the only failure they report is that the database
    could not be reached. *)
Theorem GET_routes_read_only (req : Request) (env : Env) (w : World) :
  is_GET req = true ->
  table (snd (handle req env w)) = table w
  /\ forall e, fst (handle req env w) = server_error e ->
               e = StorageUnavailable /\ db_up env = false.
Proof.
  intros Hget.
  destruct (handle_cases env w req)
    as [(why & ->) | [(s & r & E & _ & _ & Hr)
                     | (s & r & n & i & row & _ & _ & _ & Hpost & _)]].
  - split; [reflexivity | discriminate].
  - rewrite E. split; [reflexivity|]. cbn [fst]. intros e He.
    split; [exact (Hr Hget e He)|].
    destruct (db_up env) eqn:Hup; trivial. exfalso.
    destruct req as [|form| | |param|body]; try discriminate Hget.
    + unfold handle, route, page, bind, exec in E. rewrite Hup in E.
      injection E as <- _. discriminate He.
    + unfold handle, route, page, bind, exec in E. rewrite Hup in E.
      injection E as <- _. discriminate He.
    + rewrite handle_GET_api_recipes, Hup in E.
      injection E as <- _. discriminate He.
    + destruct (Zod.coerce_number (Some param)) as [k|] eqn:Hk.
      * rewrite (handle_GET_api_recipe_valid env w param k Hk), Hup in E.
        injection E as <- _. discriminate He.
      * rewrite (handle_GET_api_recipe_refused env w param Hk) in E.
        injection E as <- _. discriminate He.
  - congruence.
Qed.

Lemma GET_routes_read_only_witness :
  table (snd (handle (GET_api_recipe "1") down empty_world))
  = table empty_world
  /\ forall e,
       fst (handle (GET_api_recipe "1") down empty_world)
       = server_error e ->
       e = StorageUnavailable /\ db_up down = false.
Proof.
  apply GET_routes_read_only. reflexivity.
Defined.

(* ================================================================== *)
(** ** Requests in sequence *)
(* ================================================================== *)

Section Sequences.

(** A property of the rows that the stored row of an insert has is kept by
    every sequence of requests. *)
Lemma run_Forall (P : Recipe -> Prop) :
  (forall env n i t row, new_row env n i t = inr row -> P row) ->
  forall reqs w, Forall P (table w) -> Forall P (table (run reqs w)).
Proof.
  intros Hnew reqs. induction reqs as [|[env req] reqs IH]; intros w Hw;
    [exact Hw|].
  cbn [run]. apply IH.
  destruct (handle_table env w req) as [-> | (n & i & row & Hrow & ->)];
    [exact Hw|].
  apply Forall_app. split; [exact Hw|].
  constructor; [exact (Hnew _ _ _ _ _ Hrow) | constructor].
Qed.

Lemma max_rowid_run (t : list Recipe) :
  forall s n,
    map id t = map Z.of_nat (seq s (S n)) ->
    max_rowid t = Some (Z.of_nat (s + n)).
Proof.
  induction t as [|a t IH]; intros s n H; [discriminate H|].
  cbn [map seq] in H. injection H as Ha Ht.
  destruct n as [|n].
  - destruct t; [|discriminate Ht]. cbn [max_rowid]. f_equal. lia.
  - cbn [max_rowid]. rewrite (IH (S s) n Ht). f_equal. lia.
Qed.

Lemma next_rowid_first_rowids (t : list Recipe) (k : Z) :
  map id t = first_rowids (List.length t) ->
  next_rowid t = Some k ->
  k = Z.of_nat (S (List.length t)).
Proof.
  unfold first_rowids, next_rowid. intros Hids.
  destruct t as [|a t]; [cbn; congruence|].
  cbn [List.length] in *. rewrite (max_rowid_run _ 1 _ Hids).
  destruct (_ <? _); [|discriminate]. intros [= <-]. lia.
Qed.

Lemma candidate_bounds (x : Z) : 1 <= candidate x <= 2 ^ 62.
Proof.
  unfold candidate. change (Z.shiftr MAX_ROWID 1) with (Z.ones 62).
  rewrite Z.land_ones by lia.
  pose proof (Z.mod_pos_bound x (2 ^ 62) ltac:(lia)). lia.
Qed.

Lemma in_use_true (t : list Recipe) (k : Z) :
  In k (map id t) -> in_use t k = true.
Proof.
  intros H. apply in_map_iff in H as (r & Hr & Hin).
  apply existsb_exists. exists r. split; [exact Hin | now apply Z.eqb_eq].
Qed.

(** In a table whose rowids are 1, ..., n the generated rowid is n + 1: when
    n is the largest rowid, every candidate picked at random is in use. *)
Lemma new_rowid_first_rowids (rnd : nat -> Z) (t : list Recipe) (k : Z) :
  map id t = first_rowids (List.length t) ->
  new_rowid rnd t = Some k ->
  k = Z.of_nat (S (List.length t)).
Proof.
  intros Hids. unfold new_rowid.
  destruct (next_rowid t) as [k'|] eqn:E.
  - intros [= <-]. exact (next_rowid_first_rowids t k' Hids E).
  - intros H. exfalso. unfold random_rowid in H.
    apply find_some in H as [Hin Hfree].
    apply in_map_iff in Hin as (i & <- & _).
    pose proof (candidate_bounds (rnd i)) as Hc.
    assert (Hlen : MAX_ROWID <= Z.of_nat (List.length t)).
    { unfold next_rowid in E. destruct t as [|a t]; [discriminate E|].
      unfold first_rowids in Hids. cbn [List.length] in *.
      rewrite (max_rowid_run _ 1 _ Hids) in E.
      destruct (Z.ltb_spec (Z.of_nat (1 + List.length t)) MAX_ROWID);
        [discriminate E | lia]. }
    rewrite in_use_true in Hfree; [discriminate Hfree|].
    rewrite Hids. unfold first_rowids.
    apply in_map_iff. exists (Z.to_nat (candidate (rnd i))).
    split; [lia|]. apply in_seq. unfold MAX_ROWID in Hlen. lia.
Qed.

Lemma first_rowids_S (n : nat) :
  first_rowids (S n) = first_rowids n ++ [Z.of_nat (S n)].
Proof. unfold first_rowids. now rewrite seq_S, map_app. Qed.

End Sequences.

(** X4: no sequence of requests removes or changes a row: the table after it
    is the table before it followed by the rows added, one at most for each
    request of the method POST. *)
Theorem rows_are_never_removed (reqs : list (Env * Request)) (w : World) :
  exists added,
    table (run reqs w) = table w ++ added
    /\ (List.length added
        <= List.length (filter (fun er => negb (is_GET (snd er))) reqs))%nat.
Proof.
  revert w. induction reqs as [|[env req] reqs IH]; intros w.
  - exists []. split; [now rewrite app_nil_r | apply Nat.le_refl].
  - cbn [run filter snd].
    destruct (handle_cases env w req)
      as [(why & Hh) | [(s & r & Hh & _)
                       | (s & r & n & i & row & Hh & _ & _ & Hpost & _)]];
      rewrite Hh; cbn [snd];
      match goal with
      | |- context [run reqs ?w1] => destruct (IH w1) as (added & E & Hlen)
      end;
      cbn [sent stored table] in E.
    + exists added. split; [exact E|].
      destruct (negb (is_GET req)); cbn [List.length]; lia.
    + exists added. split; [exact E|].
      destruct (negb (is_GET req)); cbn [List.length]; lia.
    + exists (row :: added). split; [now rewrite E, <- app_assoc|].
      rewrite Hpost. cbn [negb List.length]. lia.
Qed.

(** X5: in a table filled by the service from an empty one, the rowids are
    1, 2, ..., n in the order of the rows, whatever the requests were. *)
Theorem rowids_count_from_one (reqs : list (Env * Request)) (w : World) :
  map id (table w) = first_rowids (List.length (table w)) ->
  map id (table (run reqs w))
  = first_rowids (List.length (table (run reqs w))).
Proof.
  revert w. induction reqs as [|[env req] reqs IH]; intros w Hw; [exact Hw|].
  cbn [run]. apply IH.
  destruct (handle_table env w req) as [-> | (n & i & row & Hrow & ->)];
    [exact Hw|].
  apply new_row_inr in Hrow as (a & b & k & _ & _ & Hk & ->).
  rewrite (new_rowid_first_rowids _ _ _ Hw Hk).
  rewrite map_app, length_app, Nat.add_1_r, first_rowids_S, Hw.
  reflexivity.
Qed.

Lemma rowids_count_from_one_witness :
  let reqs := [(up, POST_api_recipe ramen); (down, GET_root);
               (up, POST_add_recipe [("name", "Toast"); ("ingredience", "Bread")])] in
  map id (table (run reqs empty_world))
  = first_rowids (List.length (table (run reqs empty_world))).
Proof.
  intros reqs. apply rowids_count_from_one. reflexivity.
Defined.

(** X6: every row the service stores has both timestamps, and they are
    equal: both are CURRENT_TIMESTAMP of the insert, and no route writes
    them again. *)
Theorem timestamps_set_once (reqs : list (Env * Request)) (w : World) :
  Forall stamped (table w) -> Forall stamped (table (run reqs w)).
Proof.
  apply run_Forall. intros env n i t row Hrow.
  apply new_row_inr in Hrow as (a & b & k & _ & _ & _ & ->).
  split; [discriminate | reflexivity].
Qed.

Lemma timestamps_set_once_witness :
  Forall stamped
    (table (run [(up, POST_api_recipe ramen);
                 (up, POST_add_recipe [("name", ""); ("ingredience", "")])]
              empty_world)).
Proof.
  apply timestamps_set_once. constructor.
Defined.

(* ================================================================== *)
(** ** Looking rows up *)
(* ================================================================== *)

Section Lookup.

Lemma filter_unique (t : list Recipe) (row : Recipe) :
  NoDup (map id t) -> In row t ->
  filter (fun r => id row =? id r) t = [row].
Proof.
  induction t as [|a t IH]; intros Hnd Hin; [contradiction|].
  cbn [map] in Hnd. apply NoDup_cons_iff in Hnd as [Ha Hnd].
  cbn [filter]. destruct Hin as [-> | Hin].
  - rewrite Z.eqb_refl. f_equal. apply filter_none.
    intros x Hx. apply Z.eqb_neq. intros E. apply Ha. rewrite E.
    now apply in_map.
  - destruct (Z.eqb_spec (id row) (id a)) as [E|_]; [|now apply IH].
    exfalso. apply Ha. rewrite <- E. now apply in_map.
Qed.

(** A number that is not a positive integer equals no positive rowid. *)
Lemma eq_int_positive (n : Js.Number) (k : Z) :
  Js.is_positive_integer n = false -> 0 < k -> Js.eq_int n k = false.
Proof.
  intros Hn Hk. destruct n as [| | |m e]; try reflexivity.
  unfold Js.is_positive_integer in Hn. unfold Js.eq_int.
  destruct (Z.leb_spec 0 e) as [He|He].
  - rewrite andb_true_r in Hn. apply Z.ltb_ge in Hn.
    apply Z.eqb_neq. intros E.
    assert (0 < 2 ^ e) by (apply Z.pow_pos_nonneg; lia). nia.
  - apply Z.eqb_neq. intros ->.
    assert (Hp : 0 < 2 ^ (- e)) by (apply Z.pow_pos_nonneg; lia).
    rewrite Z.mod_mul, Z.eqb_refl, andb_true_r in Hn by lia.
    apply Z.ltb_ge in Hn. nia.
Qed.

End Lookup.

(** X7: any stored row whose rowid is within the safe range of integers
    can be fetched by its rowid.  In a table without a rowid twice,
    [GET /api/recipes/{id}] with the rowid of such a row, written in
    decimal, answers that row, when the database can be reached. *)
Theorem getRecipe_finds_stored_row (row : Recipe) (env : Env) (w : World) :
  NoDup (map id (table w)) ->
  In row (table w) ->
  Z.abs (id row) <= Js.MAX_SAFE_INTEGER ->
  db_up env = true ->
  handle (GET_api_recipe (Js.String_of_int (id row))) env w
  = (json (Some (Json.Obj [ ("id", Json.Num (Js.Fin (id row) 0));
                            ("name", text_json (name row));
                            ("ingredience", text_json (ingredience row));
                            ("createdAt", text_json (createdAt row));
                            ("updatedAt", text_json (updatedAt row)) ])) 200,
     {| table := table w;
        trace := trace w ++ [SelectWhereId (Js.Fin (id row) 0)] |}).
Proof.
  intros Hnd Hin Hsafe Hup.
  assert (E : Js.StringToNumber (Js.String_of_int (id row))
              = Js.Fin (id row) 0)
    by (rewrite StringToNumber_String_of_int; now apply of_int_safe).
  rewrite (handle_GET_api_recipe_valid env w _ (Js.Fin (id row) 0))
    by (unfold Zod.coerce_number, Js.ToNumber; now rewrite E).
  rewrite Hup.
  rewrite (filter_ext _ (fun r => id row =? id r))
    by (intros r; apply eq_int_Fin_0).
  rewrite (filter_unique _ _ Hnd Hin). cbn [hd_error option_map].
  unfold to_json, properties. now rewrite (of_int_safe _ Hsafe).
Qed.

Lemma getRecipe_finds_stored_row_witness :
  let w := run [(up, POST_api_recipe ramen);
                (up, POST_api_recipe (new_recipe "Toast" "Bread"));
                (up, POST_api_recipe (new_recipe "Tea" "Water, leaves"))]
             empty_world in
  handle (GET_api_recipe "2") up w
  = (json (Some (Json.Obj [ ("id", Json.Num (Js.Fin 2 0));
                            ("name", Json.Str "Toast");
                            ("ingredience", Json.Str "Bread");
                            ("createdAt", Json.Str "2025-01-01 00:00:00");
                            ("updatedAt", Json.Str "2025-01-01 00:00:00") ]))
       200,
     {| table := table w;
        trace := trace w ++ [SelectWhereId (Js.Fin 2 0)] |}).
Proof.
  intros w.
  apply (getRecipe_finds_stored_row
           {| id := 2; name := Some "Toast"; ingredience := Some "Bread";
              createdAt := Some (now up); updatedAt := Some (now up) |} up w).
  - repeat constructor; cbn; intuition discriminate.
  - right. left. reflexivity.
  - unfold Js.MAX_SAFE_INTEGER. cbn [id Z.abs]. lia.
  - reflexivity.
Defined.

(** The record of [GET /api/recipes/{id}] is the JSON of a stored row. *)
Lemma getRecipe_record_is_a_row (param : string) (env : Env)
    (w w' : World) (v : Json.value) :
  handle (GET_api_recipe param) env w = (json (Some v) 200, w') ->
  exists row, In row (table w) /\ v = to_json row.
Proof.
  destruct (Zod.coerce_number (Some param)) as [n|] eqn:E;
    [|rewrite (handle_GET_api_recipe_refused env w param E); discriminate].
  rewrite (handle_GET_api_recipe_valid env w param n E).
  destruct (db_up env); [|discriminate].
  destruct (filter _ (table w)) as [|r rest] eqn:Hf; [discriminate|].
  cbn [hd_error option_map]. intros H.
  assert (Hv : v = to_json r) by congruence.
  assert (Hin : In r (filter (fun r => Js.eq_int n (id r)) (table w)))
    by (rewrite Hf; now left).
  apply filter_In in Hin as [Hin _]. now exists r.
Qed.

(** X8: [GET /api/recipes/{id}] answers stored rows only: a record it
    answers is the JSON of a row of the table, and [GET /api/recipes] in the
    same state has it among its items. *)
Theorem getRecipe_answers_listed_rows (param : string) (env : Env)
    (w w' : World) (v : Json.value) :
  handle (GET_api_recipe param) env w = (json (Some v) 200, w') ->
  exists row,
    In row (table w)
    /\ v = to_json row
    /\ fst (handle GET_api_recipes env w)
       = json (Some (Json.Arr (map to_json (table w)))) 200
    /\ In v (map to_json (table w)).
Proof.
  destruct (Zod.coerce_number (Some param)) as [n|] eqn:E;
    [|rewrite (handle_GET_api_recipe_refused env w param E); discriminate].
  rewrite (handle_GET_api_recipe_valid env w param n E), handle_GET_api_recipes.
  destruct (db_up env); [|discriminate].
  destruct (filter _ (table w)) as [|r rest] eqn:Hf; [discriminate|].
  cbn [hd_error option_map fst]. intros H.
  assert (Hv : v = to_json r) by congruence.
  assert (Hin : In r (filter (fun r => Js.eq_int n (id r)) (table w)))
    by (rewrite Hf; now left).
  apply filter_In in Hin as [Hin _].
  exists r. repeat split; trivial. rewrite Hv. now apply in_map.
Qed.

Lemma getRecipe_answers_listed_rows_witness :
  let w := snd (handle (POST_api_recipe ramen) up empty_world) in
  exists row,
    In row (table w)
    /\ to_json {| id := 1; name := Some "Ramen";
                  ingredience := Some "Soba, brouth, pork, eggs";
                  createdAt := Some (now up); updatedAt := Some (now up) |}
       = to_json row
    /\ fst (handle GET_api_recipes up w)
       = json (Some (Json.Arr (map to_json (table w)))) 200
    /\ In (to_json {| id := 1; name := Some "Ramen";
                      ingredience := Some "Soba, brouth, pork, eggs";
                      createdAt := Some (now up); updatedAt := Some (now up) |})
         (map to_json (table w)).
Proof.
  intros w.
  exact (getRecipe_answers_listed_rows " 1 " up w
           (sent (SelectWhereId (Js.of_int 1)) w) _ eq_refl).
Defined.

(** X9: a parameter whose Number value is not a positive integer (zero, a
    negative number, a fraction, an infinity) passes validation but finds
    nothing in a table whose rowids are positive, as they are in every table
    the service filled from an empty one: the answer is status 200 without
    a body. *)
Theorem getRecipe_non_positive_finds_nothing (param : string)
    (env : Env) (w : World) :
  param <> "" ->
  (forall r, In r (table w) -> 0 < id r) ->
  db_up env = true ->
  Js.is_nan (Js.StringToNumber param) = false ->
  Js.is_positive_integer (Js.StringToNumber param) = false ->
  handle (GET_api_recipe param) env w
  = (json None 200,
     {| table := table w;
        trace := trace w ++ [SelectWhereId (Js.StringToNumber param)] |}).
Proof.
  intros _ Hpos Hup Hnan Hn.
  rewrite (handle_GET_api_recipe_valid env w param (Js.StringToNumber param))
    by (unfold Zod.coerce_number, Js.ToNumber; now rewrite Hnan).
  rewrite Hup, filter_none; [reflexivity|].
  intros r Hr. apply eq_int_positive; auto.
Qed.

Lemma getRecipe_non_positive_finds_nothing_witness :
  let w := snd (handle (POST_api_recipe ramen) up empty_world) in
  handle (GET_api_recipe "1.5") up w
  = (json None 200,
     {| table := table w;
        trace := trace w ++ [SelectWhereId (Js.Fin 6755399441055744 (-52))] |}).
Proof.
  intros w.
  apply (getRecipe_non_positive_finds_nothing "1.5" up w);
    try reflexivity.
  - discriminate.
  - intros r [<-|[]]. reflexivity.
Defined.

(* ================================================================== *)
(** ** The two ways to create, and creating again *)
(* ================================================================== *)

Section Creating.

Lemma max_rowid_last (t : list Recipe) (row : Recipe) :
  (forall r, In r t -> id r < id row) ->
  max_rowid (t ++ [row]) = Some (id row).
Proof.
  induction t as [|a t IH]; intros Hlt; [reflexivity|].
  cbn [app max_rowid]. rewrite IH by (intros r Hr; apply Hlt; now right).
  pose proof (Hlt a (or_introl eq_refl)). f_equal. lia.
Qed.

(** The rowid that follows a row stored above every other. *)
Lemma next_rowid_stored (t : list Recipe) (row : Recipe) :
  (forall r, In r t -> id r < id row) ->
  next_rowid (t ++ [row])
  = if id row <? MAX_ROWID then Some (id row + 1) else None.
Proof.
  intros Habove. unfold next_rowid. now rewrite max_rowid_last.
Qed.

Lemma get_app {A : Type} (k : string) (l l' : list (string * A)) :
  Json.get k (l ++ l')
  = match Json.get k l' with
    | Some v => Some v
    | None => Json.get k l
    end.
Proof.
  induction l as [|[k' v] l IH]; cbn [app Json.get].
  - now destruct (Json.get k l').
  - rewrite IH. now destruct (Json.get k l').
Qed.

End Creating.

(** X10: the form and the API store the same row.  For the same two texts,
    [POST /add-recipe] and [POST /api/recipe] leave the same table, and one
    succeeds (a redirect to the page) exactly when the other does (status
    201). *)
Theorem both_ways_store_the_same_row (form : list (string * string))
    (members : list (string * Json.value)) (a b : string) (env : Env)
    (w : World) :
  Json.get "name" form = Some a ->
  Json.get "ingredience" form = Some b ->
  Json.get "name" members = Some (Json.Str a) ->
  Json.get "ingredience" members = Some (Json.Str b) ->
  let by_form := handle (POST_add_recipe form) env w in
  let by_api := handle (POST_api_recipe (Parsed (Json.Obj members))) env w in
  table (snd by_form) = table (snd by_api)
  /\ (fst by_form = redirect "/"
      <-> exists row, fst by_api = json (Some (to_json row)) 201).
Proof.
  intros Hfa Hfb Hma Hmb by_form by_api. unfold by_form, by_api.
  rewrite handle_POST_add_recipe, Hfa, Hfb.
  rewrite (handle_POST_api_recipe_valid env w members a b)
    by (rewrite ?Hma, ?Hmb; reflexivity).
  cbv zeta. destruct (db_up env).
  - destruct (new_row _ _ _ _) as [e|row]; cbn [fst snd sent stored table].
    + split; [reflexivity|]. split; [discriminate|].
      intros [row H]; discriminate H.
    + split; [reflexivity|]. split; [now exists row | reflexivity].
  - cbn [fst snd sent table]. split; [reflexivity|].
    split; [discriminate | intros [row H]; discriminate H].
Qed.

Lemma both_ways_store_the_same_row_witness :
  let by_form :=
    handle (POST_add_recipe [("name", "Toast"); ("ingredience", "Bread")])
      up empty_world in
  let by_api := handle (POST_api_recipe (new_recipe "Toast" "Bread"))
                  up empty_world in
  table (snd by_form) = table (snd by_api)
  /\ (fst by_form = redirect "/"
      <-> exists row, fst by_api = json (Some (to_json row)) 201).
Proof.
  exact (both_ways_store_the_same_row
           [("name", "Toast"); ("ingredience", "Bread")]
           [("name", Json.Str "Toast"); ("ingredience", Json.Str "Bread")]
           "Toast" "Bread" up empty_world eq_refl eq_refl eq_refl eq_refl).
Defined.

(** X11: of two requests to [POST /api/recipe] answered with status 201 one
    right after the other, the second record has the [id] of the first plus
    one, in a table whose rowids are within the safe range of integers with
    room for two more. *)
Theorem successive_creates_have_successive_ids (body1 body2 : Body)
    (env1 env2 : Env) (w w1 w2 : World) (v1 v2 : Json.value) :
  (forall r, In r (table w) -> Z.abs (id r) < Js.MAX_SAFE_INTEGER - 1) ->
  handle (POST_api_recipe body1) env1 w = (json (Some v1) 201, w1) ->
  handle (POST_api_recipe body2) env2 w1 = (json (Some v2) 201, w2) ->
  exists k members1 members2,
    v1 = Json.Obj members1
    /\ v2 = Json.Obj members2
    /\ Json.get "id" members1 = Some (Json.Num (Js.Fin k 0))
    /\ Json.get "id" members2 = Some (Json.Num (Js.Fin (k + 1) 0)).
Proof.
  intros Hsafe H1 H2.
  destruct (handle_POST_api_recipe_201_safe body1 env1 w w1 v1
              (Js.MAX_SAFE_INTEGER - 1)
              ltac:(pose proof MAX_SAFE_INTEGER_bounds; lia) Hsafe H1)
    as (row1 & -> & Hid1 & _ & Hb1 & Habove1 & Ht1 & _).
  assert (Hsafe1 : forall r, In r (table w1) ->
                     Z.abs (id r) < Js.MAX_SAFE_INTEGER).
  { intros r Hr. rewrite Ht1 in Hr. apply in_app_or in Hr as [Hr|[<-|[]]].
    - pose proof (Hsafe r Hr). lia.
    - lia. }
  destruct (handle_POST_api_recipe_201_safe body2 env2 w1 w2 v2
              Js.MAX_SAFE_INTEGER
              ltac:(pose proof MAX_SAFE_INTEGER_bounds; lia) Hsafe1 H2)
    as (row2 & -> & Hid2 & Hk2 & _).
  rewrite Ht1, (next_rowid_stored _ _ Habove1) in Hk2.
  destruct (id row1 <? MAX_ROWID); [|discriminate Hk2].
  injection Hk2 as Hk2.
  exists (id row1), (properties row1), (properties row2).
  repeat split; trivial. now rewrite Hk2.
Qed.

Lemma successive_creates_have_successive_ids_witness :
  let w1 := snd (handle (POST_api_recipe ramen) up empty_world) in
  exists k members1 members2,
    Json.Obj [ ("id", Json.Num (Js.Fin 1 0));
               ("name", Json.Str "Ramen");
               ("ingredience", Json.Str "Soba, brouth, pork, eggs");
               ("createdAt", Json.Str "2025-01-01 00:00:00");
               ("updatedAt", Json.Str "2025-01-01 00:00:00") ]
    = Json.Obj members1
    /\ Json.Obj [ ("id", Json.Num (Js.Fin 2 0));
                  ("name", Json.Str "Toast");
                  ("ingredience", Json.Str "Bread");
                  ("createdAt", Json.Str "2025-01-01 00:00:00");
                  ("updatedAt", Json.Str "2025-01-01 00:00:00") ]
       = Json.Obj members2
    /\ Json.get "id" members1 = Some (Json.Num (Js.Fin k 0))
    /\ Json.get "id" members2 = Some (Json.Num (Js.Fin (k + 1) 0)).
Proof.
  intros w1.
  apply (successive_creates_have_successive_ids
           ramen (new_recipe "Toast" "Bread") up up empty_world w1
           (snd (handle (POST_api_recipe (new_recipe "Toast" "Bread")) up w1))).
  - intros r [].
  - reflexivity.
  - reflexivity.
Defined.

(** X12: names are not unique.  A recipe that was just created can be
    created again with the same texts: the second request is answered with
    status 201 as well, with the next rowid, when the database can be
    reached and the first rowid was not the largest there is. *)
Theorem same_recipe_can_be_created_again (a b : string) (env1 env2 : Env)
    (w : World) (k : Z) :
  db_up env1 = true ->
  db_up env2 = true ->
  next_rowid (table w) = Some k ->
  k < MAX_ROWID ->
  let create := POST_api_recipe (new_recipe a b) in
  handle create env2 (snd (handle create env1 w))
  = (json (Some (to_json {| id := k + 1; name := Some a;
                            ingredience := Some b;
                            createdAt := Some (now env2);
                            updatedAt := Some (now env2) |})) 201,
     stored (InsertValues (Some a) (Some b) true)
       {| id := k + 1; name := Some a; ingredience := Some b;
          createdAt := Some (now env2); updatedAt := Some (now env2) |}
       (stored (InsertValues (Some a) (Some b) true)
          {| id := k; name := Some a; ingredience := Some b;
             createdAt := Some (now env1); updatedAt := Some (now env1) |}
          w)).
Proof.
  intros Hup1 Hup2 Hk Hmax create. unfold create, new_recipe.
  rewrite (handle_POST_api_recipe_valid env1 w
             [("name", Json.Str a); ("ingredience", Json.Str b)] a b
             eq_refl eq_refl).
  cbv zeta.
  pose proof (new_row_given env1 a b (table w) k Hk) as Hrow.
  pose proof (next_rowid_above (table w) k Hk) as Habove.
  rewrite Hup1, Hrow. cbn [snd].
  rewrite (handle_POST_api_recipe_valid env2 _
             [("name", Json.Str a); ("ingredience", Json.Str b)] a b
             eq_refl eq_refl).
  cbv zeta. rewrite Hup2.
  rewrite (new_row_given env2 a b _ (k + 1)); [reflexivity|].
  cbn [stored table].
  rewrite (next_rowid_stored (table w)
             {| id := k; name := Some a; ingredience := Some b;
                createdAt := Some (now env1); updatedAt := Some (now env1) |}
             Habove).
  cbn [id]. apply Z.ltb_lt in Hmax. now rewrite Hmax.
Qed.

Lemma same_recipe_can_be_created_again_witness :
  table (snd (handle (POST_api_recipe ramen) up
                (snd (handle (POST_api_recipe ramen) up empty_world))))
  = [ {| id := 1; name := Some "Ramen";
         ingredience := Some "Soba, brouth, pork, eggs";
         createdAt := Some (now up); updatedAt := Some (now up) |};
      {| id := 2; name := Some "Ramen";
         ingredience := Some "Soba, brouth, pork, eggs";
         createdAt := Some (now up); updatedAt := Some (now up) |} ].
Proof.
  unfold ramen.
  rewrite (same_recipe_can_be_created_again
             "Ramen" "Soba, brouth, pork, eggs" up up empty_world 1);
    reflexivity.
Defined.

(** X13: a field sent more than once counts with its last value.  Whatever
    else the form or the JSON object holds before them, the [name] and the
    [ingredience] written last are the ones bound in the insert. *)
Theorem last_value_of_a_field_is_used (form : list (string * string))
    (members : list (string * Json.value)) (a b : string) (env : Env)
    (w : World) :
  trace (snd (handle (POST_add_recipe
                        (form ++ [("name", a); ("ingredience", b)])) env w))
  = trace w ++ [InsertValues (Some a) (Some b) false]
  /\ trace (snd (handle (POST_api_recipe
                           (Parsed (Json.Obj
                              (members ++ [("name", Json.Str a);
                                           ("ingredience", Json.Str b)]))))
                   env w))
     = trace w ++ [InsertValues (Some a) (Some b) true].
Proof.
  split.
  - rewrite handle_POST_add_recipe, !get_app.
    change (Json.get "name" [("name", a); ("ingredience", b)]) with (Some a).
    change (Json.get "ingredience" [("name", a); ("ingredience", b)])
      with (Some b).
    cbv zeta. destruct (db_up env); [destruct (new_row _ _ _ _)|];
      reflexivity.
  - rewrite (handle_POST_api_recipe_valid env w _ a b)
      by (rewrite get_app; reflexivity).
    cbv zeta. destruct (db_up env); [destruct (new_row _ _ _ _)|];
      reflexivity.
Qed.

(* ================================================================== *)
(** ** The list of the page *)
(* ================================================================== *)

Section PageList.

Lemma append_empty_r (s : string) : (s ++ "")%string = s.
Proof. induction s as [|c s IH]; cbn; [reflexivity | now rewrite IH]. Qed.

Lemma append_assoc (a b c : string) :
  ((a ++ b) ++ c)%string = (a ++ (b ++ c))%string.
Proof. induction a as [|x a IH]; cbn; [reflexivity | now rewrite IH]. Qed.

Lemma concat_cons (h : string) (t : list string) :
  String.concat "" (h :: t) = (h ++ String.concat "" t)%string.
Proof.
  destruct t as [|x t]; cbn [String.concat]; [now rewrite append_empty_r|].
  reflexivity.
Qed.

Lemma concat_app (l l' : list string) :
  String.concat "" (l ++ l')
  = (String.concat "" l ++ String.concat "" l')%string.
Proof.
  induction l as [|h l IH]; [reflexivity|].
  cbn [app]. now rewrite !concat_cons, IH, append_assoc.
Qed.

Lemma recipeList_app (t t' : list Recipe) :
  recipeList (t ++ t') = (recipeList t ++ recipeList t')%string.
Proof. unfold recipeList. now rewrite map_app, concat_app. Qed.

Lemma handle_page_html (req : Request) (env : Env) (w : World) :
  req = GET_root \/ req = GET_recipes ->
  db_up env = true ->
  fst (handle req env w) = html (recipeList (table w)).
Proof.
  intros [-> | ->] Hup; unfold handle, route, page, bind, exec;
    now rewrite Hup.
Qed.

End PageList.

(** X14: the pages list the rows in the order of the table, one item for
    each, with the two texts as they are stored.  After a recipe was added
    through the form, [GET /] and [GET /recipes] show the list they showed
    before followed by the item of that recipe, in which the name and the
    ingredients stand unchanged. *)
Theorem page_shows_added_recipe_last (req : Request)
    (form : list (string * string)) (a b : string) (env env' : Env)
    (w : World) (k : Z) :
  req = GET_root \/ req = GET_recipes ->
  Json.get "name" form = Some a ->
  Json.get "ingredience" form = Some b ->
  db_up env = true ->
  db_up env' = true ->
  next_rowid (table w) = Some k ->
  exists before,
    fst (handle req env' w) = html before
    /\ fst (handle req env' (snd (handle (POST_add_recipe form) env w)))
       = html (before ++ nl ++ "      <li>" ++ nl ++ "        <strong>" ++ a
               ++ "</strong>: " ++ b ++ nl ++ "      </li>")%string.
Proof.
  intros Hreq Ha Hb Hup Hup' Hk. exists (recipeList (table w)).
  rewrite !(handle_page_html req env' _ Hreq Hup').
  split; [reflexivity|].
  rewrite handle_POST_add_recipe, Ha, Hb. cbv zeta.
  rewrite Hup, (new_row_given env a b (table w) k Hk).
  cbn [snd stored table]. now rewrite recipeList_app.
Qed.

Lemma page_shows_added_recipe_last_witness :
  exists before,
    fst (handle GET_root up
           (snd (handle (POST_api_recipe ramen) up empty_world)))
    = html before
    /\ fst (handle GET_root up
              (snd (handle (POST_add_recipe
                              [("name", "<b>Toast</b>");
                               ("ingredience", "Bread")]) up
                      (snd (handle (POST_api_recipe ramen) up empty_world)))))
       = html (before ++ nl ++ "      <li>" ++ nl ++ "        <strong>"
               ++ "<b>Toast</b>" ++ "</strong>: " ++ "Bread" ++ nl
               ++ "      </li>")%string.
Proof.
  apply (page_shows_added_recipe_last GET_root
           [("name", "<b>Toast</b>"); ("ingredience", "Bread")]
           "<b>Toast</b>" "Bread" up up
           (snd (handle (POST_api_recipe ramen) up empty_world)) 2);
    try reflexivity.
  left. reflexivity.
Defined.

(* ================================================================== *)
(** ** White space around the parameter *)
(* ================================================================== *)

Section WhiteSpace.

Import Js.

Lemma chars_app (a b : string) :
  list_ascii_of_string (a ++ b)
  = list_ascii_of_string a ++ list_ascii_of_string b.
Proof. induction a as [|c a IH]; cbn; [reflexivity | now rewrite IH]. Qed.

Lemma drop_ws_ws_app (pre l : list ascii) :
  Forall (fun c => is_ws c = true) pre -> drop_ws (pre ++ l) = drop_ws l.
Proof.
  induction 1 as [|c pre Hc _ IH]; [reflexivity|].
  cbn [app drop_ws]. now rewrite Hc.
Qed.

Lemma drop_ws_app_ws (l post : list ascii) :
  Forall (fun c => is_ws c = true) post ->
  drop_ws (rev (drop_ws (l ++ post))) = drop_ws (rev (drop_ws l)).
Proof.
  intros Hpost. induction l as [|c l IH].
  - cbn [app]. rewrite <- (app_nil_r post), drop_ws_ws_app by exact Hpost.
    reflexivity.
  - cbn [app drop_ws]. destruct (is_ws c) eqn:Hc; [exact IH|].
    change (c :: l ++ post) with ((c :: l) ++ post).
    rewrite rev_app_distr. apply drop_ws_ws_app. now apply Forall_rev.
Qed.

Lemma trim_ws (pre l post : list ascii) :
  Forall (fun c => is_ws c = true) pre ->
  Forall (fun c => is_ws c = true) post ->
  trim (pre ++ l ++ post) = trim l.
Proof.
  intros Hpre Hpost. unfold trim.
  now rewrite drop_ws_ws_app, drop_ws_app_ws.
Qed.

End WhiteSpace.

(** X15: white space around the parameter of [GET /api/recipes/{id}] does
    not count: the request is served as it is without it. *)
Theorem getRecipe_ignores_white_space (pre s post : string) (env : Env)
    (w : World) :
  Forall (fun c => Js.is_ws c = true) (list_ascii_of_string pre) ->
  Forall (fun c => Js.is_ws c = true) (list_ascii_of_string post) ->
  handle (GET_api_recipe (pre ++ s ++ post)%string) env w
  = handle (GET_api_recipe s) env w.
Proof.
  intros Hpre Hpost.
  assert (E : Js.ToNumber (Some (pre ++ s ++ post)%string)
              = Js.ToNumber (Some s)).
  { unfold Js.ToNumber, Js.StringToNumber.
    now rewrite !chars_app, trim_ws. }
  unfold handle, route, valid_param, Zod.coerce_number. now rewrite E.
Qed.

Lemma getRecipe_ignores_white_space_witness :
  handle (GET_api_recipe (" " ++ "1" ++ "  ")%string) up
    (snd (handle (POST_api_recipe ramen) up empty_world))
  = handle (GET_api_recipe "1") up
      (snd (handle (POST_api_recipe ramen) up empty_world)).
Proof.
  apply getRecipe_ignores_white_space; repeat constructor.
Defined.

(* ================================================================== *)
(** ** The other copy of [index.ts]: responses and their schema *)
(* ================================================================== *)

Section OtherCopy.

Variables (env : Env) (w : World).

(** What the route of creation does in this copy: it refuses, or it runs
    the insert with two texts of which the second is an address. *)
Lemma Part000_createRecipe_cases (body : Body) :
  (exists why,
      Part000.createRecipe body env w = (Return (bad_request why), w))
  \/ exists a b,
       Zod.is_email b = true
       /\ Part000.createRecipe body env w
          = let s := InsertValues (Some a) (Some b) true in
            if db_up env then
              match new_row env (Some a) (Some b) (table w) with
              | inr row => (Return (json (Some (to_json row)) 201),
                            stored s row w)
              | inl e => (Throw e, sent s w)
              end
            else (Throw StorageUnavailable, sent s w).
Proof.
  destruct body as [|v]; [left; now exists MalformedJson|].
  unfold Part000.createRecipe, valid_json.
  destruct v as [ | ? | ? | ? | ? | members];
    try (left; now exists ValidationError).
  cbn [Zod.safeParse Part000.NewRecipeSchema Zod.parse_fields].
  destruct (Json.get "name" members) as [[ | ? | ? | a | ? | ? ]|];
    try (left; now exists ValidationError);
    try (left; exists ValidationError;
         destruct (Json.get "ingredience" members) as [v|];
         [destruct (Zod.check Zod.string_email (Some v))|]; reflexivity).
  destruct (Json.get "ingredience" members) as [[ | ? | ? | b | ? | ? ]|];
    try (left; now exists ValidationError).
  cbn [Zod.check]. destruct (Zod.is_email b) eqn:He;
    [|left; now exists ValidationError].
  right. exists a, b. split; [exact He|].
  unfold createRecipe_handler.
  change (Json.get "name" [("name", Json.Str a); ("ingredience", Json.Str b)])
    with (Some (Json.Str a)).
  change (Json.get "ingredience"
            [("name", Json.Str a); ("ingredience", Json.Str b)])
    with (Some (Json.Str b)).
  unfold bind, exec. cbn [text]. cbv zeta.
  destruct (db_up env); [|reflexivity].
  destruct (new_row _ _ _ _); reflexivity.
Qed.

(** The routes this copy shares with the application answer as they do
    there. *)
Lemma Part000_handle_GET_api_recipes :
  Part000.handle Part000.GET_api_recipes env w
  = (Part000.api (fst (handle GET_api_recipes env w)),
     snd (handle GET_api_recipes env w)).
Proof.
  unfold Part000.handle, Part000.route, handle, route, bind.
  destruct (getRecipes_handler env w) as [[r|e] w']; reflexivity.
Qed.

Lemma Part000_handle_GET_api_recipe (param : string) :
  Part000.handle (Part000.GET_api_recipe param) env w
  = (Part000.api (fst (handle (GET_api_recipe param) env w)),
     snd (handle (GET_api_recipe param) env w)).
Proof.
  unfold Part000.handle, Part000.route, handle, route, bind.
  destruct (valid_param (Some param) getRecipe_handler env w) as [[r|e] w'];
    reflexivity.
Qed.

Lemma Part000_handle_POST_api_recipe (body : Body) :
  Part000.handle (Part000.POST_api_recipe body) env w
  = match Part000.createRecipe body env w with
    | (Return r, w') => (Part000.api r, w')
    | (Throw e, w') => (Part000.api (server_error e), w')
    end.
Proof.
  unfold Part000.handle, Part000.route, bind.
  destruct (Part000.createRecipe body env w) as [[r|e] w']; reflexivity.
Qed.

(** A request of this copy leaves the table as it is or adds one row whose
    texts are set and whose ingredients are an address. *)
Lemma Part000_handle_table (req : Part000.Request) :
  table (snd (Part000.handle req env w)) = table w
  \/ exists a b row,
       Zod.is_email b = true
       /\ new_row env (Some a) (Some b) (table w) = inr row
       /\ table (snd (Part000.handle req env w)) = table w ++ [row].
Proof.
  destruct req as [| |param|body].
  - now left.
  - left. now rewrite Part000_handle_GET_api_recipes, handle_GET_api_recipes.
  - left. rewrite Part000_handle_GET_api_recipe.
    destruct (Zod.coerce_number (Some param)) as [n|] eqn:E.
    + now rewrite (handle_GET_api_recipe_valid env w param n E).
    + now rewrite (handle_GET_api_recipe_refused env w param E).
  - rewrite Part000_handle_POST_api_recipe.
    destruct (Part000_createRecipe_cases body)
      as [(why & ->) | (a & b & He & ->)]; [now left|].
    cbv zeta. destruct (db_up env); [|now left].
    destruct (new_row _ _ _ _) as [e|row] eqn:Hrow; [now left|].
    right. now exists a, b, row.
Qed.

End OtherCopy.

(** A row whose ingredients are an address and whose name is set passes
    [RecipeSchema]. *)
Lemma address_row_passes (env : Env) (a b : string) (t : list Recipe)
    (row : Recipe) :
  Zod.is_email b = true ->
  new_row env (Some a) (Some b) t = inr row ->
  Zod.safeParse RecipeSchema (to_json row) <> None.
Proof.
  intros He Hrow.
  apply new_row_inr in Hrow as (a' & b' & k & [= <-] & [= <-] & _ & ->).
  now rewrite (RecipeSchema_accepts_address
                 {| id := k; name := Some a; ingredience := Some b;
                    createdAt := Some (now env);
                    updatedAt := Some (now env) |}
                 a b eq_refl eq_refl He).
Qed.

(** X16: in the copy whose [NewRecipeSchema] asks for an address, the
    request and the response of [POST /api/recipe] agree: a record answered
    with status 201 passes [RecipeSchema], the schema declared for it. *)
Theorem Part000_created_record_passes_schema (body : Body) (env : Env)
    (w w' : World) (v : Json.value) :
  Part000.handle (Part000.POST_api_recipe body) env w
  = (Part000.api (json (Some v) 201), w') ->
  Zod.safeParse RecipeSchema v <> None.
Proof.
  rewrite Part000_handle_POST_api_recipe.
  destruct (Part000_createRecipe_cases env w body)
    as [(why & ->) | (a & b & He & ->)]; [discriminate|].
  cbv zeta. destruct (db_up env); [|discriminate].
  destruct (new_row _ _ _ _) as [e|row] eqn:Hrow; [discriminate|].
  intros H. assert (E : v = to_json row) by congruence. rewrite E.
  exact (address_row_passes _ _ _ _ _ He Hrow).
Qed.

Lemma Part000_created_record_passes_schema_witness :
  Zod.safeParse RecipeSchema
    (to_json {| id := 1; name := Some "Cook";
                ingredience := Some "cook@example.org";
                createdAt := Some (now up); updatedAt := Some (now up) |})
  <> None.
Proof.
  apply (Part000_created_record_passes_schema
           (new_recipe "Cook" "cook@example.org") up empty_world
           (snd (Part000.handle
                   (Part000.POST_api_recipe
                      (new_recipe "Cook" "cook@example.org"))
                   up empty_world))).
  reflexivity.
Defined.

(** X17: that copy keeps its table within the response schema.  When every
    row passes [RecipeSchema], as in an empty table, every row still does
    after any sequence of its requests, and so does every item that
    [GET /api/recipes] then answers and the record that
    [GET /api/recipes/{id}] then answers. *)
Theorem Part000_responses_pass_schema (reqs : list (Env * Part000.Request))
    (w : World) :
  Forall (fun r => Zod.safeParse RecipeSchema (to_json r) <> None) (table w) ->
  let w' := Part000.run reqs w in
  Forall (fun r => Zod.safeParse RecipeSchema (to_json r) <> None) (table w')
  /\ (forall env items,
        fst (Part000.handle Part000.GET_api_recipes env w')
        = Part000.api (json (Some (Json.Arr items)) 200) ->
        Forall (fun v => Zod.safeParse RecipeSchema v <> None) items)
  /\ (forall env param v,
        fst (Part000.handle (Part000.GET_api_recipe param) env w')
        = Part000.api (json (Some v) 200) ->
        Zod.safeParse RecipeSchema v <> None).
Proof.
  intros Hw w'.
  assert (Hw' : Forall (fun r => Zod.safeParse RecipeSchema (to_json r) <> None)
                  (table w')).
  { unfold w'. clear w'. revert w Hw.
    induction reqs as [|[env req] reqs IH]; intros w Hw; [exact Hw|].
    cbn [Part000.run]. apply IH.
    destruct (Part000_handle_table env w req)
      as [-> | (a & b & row & He & Hrow & ->)]; [exact Hw|].
    apply Forall_app. split; [exact Hw|].
    constructor; [exact (address_row_passes _ _ _ _ _ He Hrow) | constructor]. }
  split; [exact Hw' | split].
  - intros env items. rewrite Part000_handle_GET_api_recipes.
    rewrite handle_GET_api_recipes. cbn [fst].
    destruct (db_up env); [|discriminate]. intros H.
    assert (E : items = map to_json (table w')) by congruence.
    rewrite E. apply Forall_map. exact Hw'.
  - intros env param v. rewrite Part000_handle_GET_api_recipe. cbn [fst].
    intros H.
    assert (E : fst (handle (GET_api_recipe param) env w')
                = json (Some v) 200) by congruence.
    destruct (handle (GET_api_recipe param) env w') as [r w''] eqn:Hh.
    cbn [fst] in E. subst r.
    destruct (getRecipe_record_is_a_row param env w' w'' v Hh)
      as (row & Hin & ->).
    exact (proj1 (Forall_forall _ _) Hw' row Hin).
Qed.

Lemma Part000_responses_pass_schema_witness :
  let w' := Part000.run
              [(up, Part000.POST_api_recipe
                      (new_recipe "Cook" "cook@example.org"));
               (up, Part000.POST_api_recipe ramen);
               (up, Part000.GET_root)]
              empty_world in
  Forall (fun r => Zod.safeParse RecipeSchema (to_json r) <> None) (table w').
Proof.
  intros w'.
  apply (Part000_responses_pass_schema
           [(up, Part000.POST_api_recipe (new_recipe "Cook" "cook@example.org"));
            (up, Part000.POST_api_recipe ramen);
            (up, Part000.GET_root)] empty_world).
  constructor.
Defined.

(* ================================================================== *)
(** ** Refusal depends on the request alone *)
(* ================================================================== *)

(** X18: whether a request is refused with status 400 depends on the request
    alone, not on the table, on the statements sent before, on the time or
    on the database being reachable; and it is refused for the same
    reason. *)
Theorem refusal_depends_on_request_only (req : Request) (env env' : Env)
    (w w' : World) (why : Rejection) :
  fst (handle req env w) = bad_request why ->
  handle req env' w' = (bad_request why, w').
Proof.
  destruct req as [|form| | |param|body].
  - unfold handle, route, page, bind, exec.
    destruct (db_up env); discriminate.
  - rewrite handle_POST_add_recipe. cbv zeta.
    destruct (db_up env); [destruct (new_row _ _ _ _)|]; discriminate.
  - unfold handle, route, page, bind, exec.
    destruct (db_up env); discriminate.
  - rewrite handle_GET_api_recipes. destruct (db_up env); discriminate.
  - destruct (Zod.coerce_number (Some param)) as [n|] eqn:E.
    + rewrite (handle_GET_api_recipe_valid env w param n E).
      destruct (db_up env); discriminate.
    + rewrite !(handle_GET_api_recipe_refused _ _ param E). cbn [fst].
      now intros [= <-].
  - destruct body as [|v]; [cbn; now intros [= <-]|].
    destruct (Zod.safeParse NewRecipeSchema v) as [data|] eqn:E.
    + destruct v as [ | ? | ? | ? | ? | members]; try discriminate E.
      rewrite safeParse_NewRecipeSchema in E.
      destruct (text (Json.get "name" members)) as [a|] eqn:Ha;
        [|discriminate].
      destruct (text (Json.get "ingredience" members)) as [b|] eqn:Hb;
        [|discriminate].
      rewrite (handle_POST_api_recipe_valid env w members a b Ha Hb).
      cbv zeta.
      destruct (db_up env); [destruct (new_row _ _ _ _)|]; discriminate.
    + rewrite !(handle_POST_api_recipe_refused _ _ v E). cbn [fst].
      now intros [= <-].
Qed.

Lemma refusal_depends_on_request_only_witness :
  handle (GET_api_recipe "ramen") down
    (snd (handle (POST_api_recipe ramen) up empty_world))
  = (bad_request ValidationError,
     snd (handle (POST_api_recipe ramen) up empty_world)).
Proof.
  apply (refusal_depends_on_request_only (GET_api_recipe "ramen")
           up down empty_world).
  reflexivity.
Defined.

(* ================================================================== *)
(** ** The characters of an address *)
(* ================================================================== *)

Section Address.

Variable P : ascii -> Prop.

(** What holds of every piece of a text and of the separator holds of the
    text. *)
Lemma Forall_split (sep : ascii) (l : list ascii) :
  P sep ->
  Forall (Forall P) (Zod.split sep l) ->
  Forall P l.
Proof.
  intros Hsep. induction l as [|c l IH]; intros H; [constructor|].
  cbn [Zod.split] in H. destruct (Ascii.eqb_spec c sep) as [->|_].
  - apply Forall_cons_iff in H as [_ H]. constructor; auto.
  - destruct (Zod.split sep l) as [|p ps].
    + apply Forall_cons_iff in H as [H _].
      apply Forall_cons_iff in H as [Hc _]. constructor; auto.
    + apply Forall_cons_iff in H as [H Hps].
      apply Forall_cons_iff in H as [Hc Hp]. constructor; auto.
Qed.

End Address.

(** The characters an address can hold: letters, digits and
    [_ ' + - . @]. *)
Lemma is_email_chars (s : string) :
  Zod.is_email s = true ->
  Forall (fun c => Zod.local_char c || Ascii.eqb c "@" = true)
    (list_ascii_of_string s).
Proof.
  set (P := fun c => Zod.local_char c || Ascii.eqb c "@" = true).
  assert (Halnum : forall c, Zod.is_alnum c = true -> P c).
  { intros c Hc. unfold P, Zod.local_char. now rewrite Hc. }
  assert (Hlocal : forall c, Zod.local_char c = true -> P c).
  { intros c Hc. unfold P. now rewrite Hc. }
  assert (Hdash : forall c,
            Zod.is_alnum c || Zod.one_of "-" c = true -> P c).
  { intros c Hc. apply Hlocal. unfold Zod.local_char.
    destruct (Zod.is_alnum c); [reflexivity|]. cbn in Hc |- *.
    rewrite orb_false_r in Hc. rewrite Hc. now rewrite !orb_true_r. }
  intros H. unfold Zod.is_email in H. cbv zeta in H.
  apply andb_prop in H as [_ H].
  destruct (Zod.split "@" (list_ascii_of_string s))
    as [|loc [|dom [|x rest]]] eqn:Hsplit; try discriminate H.
  apply andb_prop in H as [Hloc Hdom].
  apply (Forall_split P "@"); [reflexivity|]. rewrite Hsplit.
  constructor; [|constructor; [|constructor]].
  - unfold Zod.local_part in Hloc.
    destruct (rev loc) as [|last init] eqn:Hrev; [discriminate|].
    apply andb_prop in Hloc as [Hlast Hinit].
    rewrite <- (rev_involutive loc), Hrev. apply Forall_rev.
    constructor.
    + apply Hlocal. unfold Zod.local_last in Hlast. unfold Zod.local_char.
      destruct (Zod.is_alnum last); [reflexivity|]. cbn in Hlast |- *.
      rewrite orb_false_r in Hlast.
      destruct (Ascii.eqb last "_"); [reflexivity|].
      destruct (Ascii.eqb last "+"); [now rewrite !orb_true_r|].
      cbn in Hlast. rewrite Hlast. now rewrite !orb_true_r.
    + apply Forall_forall. intros c Hc. apply Hlocal.
      exact (proj1 (forallb_forall _ _) Hinit c Hc).
  - unfold Zod.domain in Hdom. apply (Forall_split P "."); [reflexivity|].
    rewrite <- (rev_involutive (Zod.split "." dom)).
    destruct (rev (Zod.split "." dom)) as [|t [|l1 labels]];
      try discriminate Hdom.
    apply andb_prop in Hdom as [Ht Hlabels].
    apply Forall_rev. constructor.
    + unfold Zod.tld in Ht. apply andb_prop in Ht as [_ Ht].
      apply Forall_forall. intros c Hc. apply Halnum. unfold Zod.is_alnum.
      now rewrite (proj1 (forallb_forall _ _) Ht c Hc).
    + apply Forall_forall. intros l Hl.
      pose proof (proj1 (forallb_forall _ _) Hlabels l Hl) as Hlab.
      unfold Zod.label in Hlab. destruct l as [|c r]; [discriminate|].
      apply andb_prop in Hlab as [Hc Hr]. constructor; [now apply Halnum|].
      apply Forall_forall. intros x Hx. apply Hdash.
      exact (proj1 (forallb_forall _ _) Hr x Hx).
Qed.

(** X19: in the copy whose [NewRecipeSchema] asks for an address, a list of
    ingredients cannot be created through the API: a request to
    [POST /api/recipe] whose [ingredience] holds a space or a comma, or no
    at sign, is refused with a ValidationError and nothing is sent to the
    database. *)
Theorem Part000_ingredient_list_is_refused
    (members : list (string * Json.value)) (b : string) (env : Env)
    (w : World) :
  Json.get "ingredience" members = Some (Json.Str b) ->
  In " "%char (list_ascii_of_string b)
  \/ In ","%char (list_ascii_of_string b)
  \/ ~ In "@"%char (list_ascii_of_string b) ->
  Part000.handle (Part000.POST_api_recipe (Parsed (Json.Obj members))) env w
  = (Part000.api (bad_request ValidationError), w).
Proof.
  intros Hb Hc.
  assert (He : Zod.is_email b = false).
  { destruct (Zod.is_email b) eqn:E; trivial. exfalso.
    pose proof (is_email_chars b E) as Hall.
    destruct Hc as [Hc | [Hc | Hc]].
    - now pose proof (proj1 (Forall_forall _ _) Hall _ Hc).
    - now pose proof (proj1 (Forall_forall _ _) Hall _ Hc).
    - exact (Hc (is_email_at b E)). }
  rewrite Part000_handle_POST_api_recipe.
  unfold Part000.createRecipe, valid_json.
  cbn [Zod.safeParse Part000.NewRecipeSchema Zod.parse_fields].
  rewrite Hb. cbn [Zod.check]. rewrite He.
  now destruct (Json.get "name" members).
Qed.

Lemma Part000_ingredient_list_is_refused_witness :
  Part000.handle (Part000.POST_api_recipe ramen) up empty_world
  = (Part000.api (bad_request ValidationError), empty_world).
Proof.
  apply (Part000_ingredient_list_is_refused
           [("name", Json.Str "Ramen");
            ("ingredience", Json.Str "Soba, brouth, pork, eggs")]
           "Soba, brouth, pork, eggs" up empty_world).
  - reflexivity.
  - right. left. cbn. tauto.
Defined.
